(** * Capture engine of camers_display: a shallow embedding

    Sources embedded: [core/camera_manager.py] (classes [CameraThread] and
    [CameraManager]) and [core/config_manager.py] (class [ConfigManager]).

    Python objects are records; a dictionary is a [gmap]; the body of a
    thread is cut at the points where another thread can observe it, and
    every exception the source catches is an explicit result. *)

From stdpp Require Import base gmap strings list list_numbers pretty.

Local Open Scope Z_scope.

(** ** Python values found in a camera configuration *)

(** A camera configuration is a JSON object; the values the program reads
    from it are booleans, integers, strings and [null]. *)
Inductive JVal :=
  | JNull
  | JBool (b : bool)
  | JInt (n : Z)
  | JStr (s : string).

Global Instance JVal_eq_dec : EqDecision JVal.
Proof. solve_decision. Defined.

(** Python truth value, as used by [if x:] and [not x]. *)
Definition truthy (v : JVal) : bool :=
  match v with
  | JNull => false
  | JBool b => b
  | JInt n => bool_decide (n ≠ 0)
  | JStr s => bool_decide (s ≠ EmptyString)
  end.

(** [str(v)], as used by f-strings. *)
Definition py_str (v : JVal) : string :=
  match v with
  | JNull => "None"
  | JBool true => "True"
  | JBool false => "False"
  | JInt n => pretty n
  | JStr s => s
  end.

(** [d.get(key, default)] *)
Definition dict_get (d : gmap string JVal) (key : string) (dflt : JVal) : JVal :=
  default dflt (d !! key).

(** [d.get(key) == s] for a string literal [s]; a missing key gives [None],
    which is different from every string. *)
Definition get_is_str (d : gmap string JVal) (key s : string) : bool :=
  bool_decide (d !! key = Some (JStr s)).

(** A decoded image. Only its identity matters here, so a frame is the
    number the camera gave it. [cap.read()] never returns [None] together
    with [ret == True], hence a frame is never Python's [None]. *)
Definition Frame : Type := nat.

(** ** [queue.Queue], non-blocking operations *)

Module Queue.

(** [Queue._qsize] *)
Definition qsize (q : list Frame) : Z := Z.of_nat (length q).

(** [Queue.full]: [0 < self.maxsize <= self._qsize()] *)
Definition full (maxsize : Z) (q : list Frame) : bool :=
  bool_decide (0 < maxsize ∧ maxsize ≤ qsize q).

(** [q.put(item, block=False)]; [None] stands for [raise Full]. *)
Definition put_nowait (maxsize : Z) (item : Frame) (q : list Frame)
  : option (list Frame) :=
  if full maxsize q then None else Some (q ++ [item]).

(** [q.get(block=False)]; [None] stands for [raise Empty]. *)
Definition get_nowait (q : list Frame) : option (Frame * list Frame) :=
  match q with
  | [] => None
  | item :: rest => Some (item, rest)
  end.

End Queue.

(** ** [class CameraThread] *)

(** Where the thread is in [run]. *)
Inductive Phase :=
  | Created     (* [run] has not begun *)
  | Reading     (* inside [while self.running:] *)
  | Finished.   (* [run] has returned, or died with an exception *)

(** The [cv2.VideoCapture] handle [cap], a local of [run]. *)
Inductive Capture :=
  | NoCapture   (* no [VideoCapture] was constructed *)
  | Unopened    (* constructed, [isOpened()] is false *)
  | Opened      (* constructed and open *)
  | Released.   (* [cap.release()] was called *)

(** What [cv2.VideoCapture(target)] does. *)
Inductive OpenResult :=
  | OpenOk      (* [isOpened()] is true *)
  | OpenFailed  (* [isOpened()] is false *)
  | OpenError.  (* the constructor or [cap.set] raises *)

(** What one [cap.read()] does. *)
Inductive ReadResult :=
  | ReadOk (frame : Frame)   (* [ret] is true *)
  | ReadFail                 (* [ret] is false *)
  | ReadError.               (* the call raises *)

Global Instance Phase_eq_dec : EqDecision Phase.
Proof. solve_decision. Defined.
Global Instance Capture_eq_dec : EqDecision Capture.
Proof. solve_decision. Defined.

(** The locals of [run]. [good_reads] is a ghost counter, absent from the
    source: the number of reads with [ret] true since [run] began. *)
Record RunLocals := mkLocals {
  phase : Phase;
  cap : Capture;
  read_failures : Z;
  good_reads : nat;
}.

Record CameraThread := mkThread {
  camera_index : Z;
  config : gmap string JVal;
  running : bool;
  connected : bool;
  frame_queue : list Frame;          (* [queue.Queue(maxsize=2)] *)
  latest_frame : option Frame;       (* [None] until the first frame *)
  timeout : Z;
  started : bool;                    (* [Thread.start] was called *)
  locals : RunLocals;
}.

Definition frame_queue_maxsize : Z := 2.

Definition set_running (b : bool) (t : CameraThread) : CameraThread :=
  mkThread (camera_index t) (config t) b (connected t) (frame_queue t)
           (latest_frame t) (timeout t) (started t) (locals t).

Definition set_connected (b : bool) (t : CameraThread) : CameraThread :=
  mkThread (camera_index t) (config t) (running t) b (frame_queue t)
           (latest_frame t) (timeout t) (started t) (locals t).

Definition set_frame_queue (q : list Frame) (t : CameraThread) : CameraThread :=
  mkThread (camera_index t) (config t) (running t) (connected t) q
           (latest_frame t) (timeout t) (started t) (locals t).

Definition set_latest_frame (f : option Frame) (t : CameraThread) : CameraThread :=
  mkThread (camera_index t) (config t) (running t) (connected t) (frame_queue t)
           f (timeout t) (started t) (locals t).

Definition set_started (b : bool) (t : CameraThread) : CameraThread :=
  mkThread (camera_index t) (config t) (running t) (connected t) (frame_queue t)
           (latest_frame t) (timeout t) b (locals t).

Definition set_locals (l : RunLocals) (t : CameraThread) : CameraThread :=
  mkThread (camera_index t) (config t) (running t) (connected t) (frame_queue t)
           (latest_frame t) (timeout t) (started t) l.

(** [CameraThread.__init__] *)
Definition new_thread (index : Z) (cfg : gmap string JVal) : CameraThread :=
  {| camera_index := index;
     config := cfg;
     running := false;
     connected := false;
     frame_queue := [];
     latest_frame := None;
     timeout := 5;
     started := false;
     locals := mkLocals Created NoCapture 0 0 |}.

(** [Thread.start]: from now on [run] may begin. *)
Definition start (t : CameraThread) : CameraThread := set_started true t.

(** [run] returns without reaching the clean-up code. *)
Definition leave (c : Capture) (t : CameraThread) : CameraThread :=
  set_locals (mkLocals Finished c (read_failures (locals t)) (good_reads (locals t))) t.

(** Lines 39-75 of [run]: from [self.running = True] to the loop head.
    [o] is what [cv2.VideoCapture] does for this source. *)
Definition run_begin (o : OpenResult) (t : CameraThread) : CameraThread :=
  let t := set_running true t in
  if negb (truthy (dict_get (config t) "enabled" (JBool false))) then
    leave NoCapture t
  else if get_is_str (config t) "source_type" "rtsp"
          && negb (truthy (dict_get (config t) "url" (JStr ""))) then
    leave NoCapture t
  else
    match o with
    | OpenError => leave NoCapture t
    | OpenFailed => leave Unopened t
    | OpenOk =>
        set_locals (mkLocals Reading Opened 0 (good_reads (locals t)))
                   (set_connected true t)
    end.

(** Lines 115-117 of [run]: [cap.release(); self.connected = False]. *)
Definition clean_up (t : CameraThread) : CameraThread :=
  set_connected false
    (set_locals (mkLocals Finished Released (read_failures (locals t))
                          (good_reads (locals t))) t).

(** Lines 97-106 of [run], on the queue alone. [Published q] is the normal
    end with queue [q]; [Escaped q] is the second [put] raising [Full],
    which [except queue.Empty] does not catch. *)
Inductive Publish :=
  | Published (q : list Frame)
  | Escaped (q : list Frame).

Definition publish (frame : Frame) (q : list Frame) : Publish :=
  match Queue.put_nowait frame_queue_maxsize frame q with
  | Some q' => Published q'
  | None =>                                   (* [except queue.Full] *)
      match Queue.get_nowait q with
      | None => Published q                   (* [except queue.Empty: pass] *)
      | Some (_, q1) =>
          match Queue.put_nowait frame_queue_maxsize frame q1 with
          | Some q2 => Published q2
          | None => Escaped q1
          end
      end
  end.

Definition queue_of (p : Publish) : list Frame :=
  match p with Published q | Escaped q => q end.

Definition set_failures (n : Z) (t : CameraThread) : CameraThread :=
  set_locals (mkLocals (phase (locals t)) (cap (locals t)) n (good_reads (locals t))) t.

(** Lines 76-113 of [run]: the loop test and one pass of the body, with
    [r] the outcome of [cap.read()]. Leaving the loop runs the clean-up.
    An exception inside the body is caught by [except Exception], which
    logs, sleeps and goes back to the loop test. *)
Definition run_iteration (r : ReadResult) (t : CameraThread) : CameraThread :=
  if negb (running t) then clean_up t
  else
    match r with
    | ReadError => t
    | ReadFail =>
        let t := set_failures (read_failures (locals t) + 1) t in
        if bool_decide (read_failures (locals t) > 5) then
          clean_up (set_connected false t)          (* [break] *)
        else t                                      (* [continue] *)
    | ReadOk frame =>
        let t := set_failures 0 t in
        let t := set_locals (mkLocals (phase (locals t)) (cap (locals t))
                                      (read_failures (locals t))
                                      (S (good_reads (locals t)))) t in
        let t := set_latest_frame (Some frame) t in
        set_frame_queue (queue_of (publish frame (frame_queue t))) t
    end.

(** [CameraThread.get_frame]: the returned value and the thread after. *)
Definition get_frame (t : CameraThread) : option Frame * CameraThread :=
  match Queue.get_nowait (frame_queue t) with
  | Some (frame, rest) => (Some frame, set_frame_queue rest t)
  | None => (latest_frame t, t)                 (* [except queue.Empty] *)
  end.

(** [CameraThread.stop]. [join(timeout=1.0)] only waits; it changes no
    field. *)
Definition stop (t : CameraThread) : CameraThread := set_running false t.

(** What can happen to one thread object: its own thread advances, or
    another thread calls one of its methods. *)
Inductive Event :=
  | EvRun (o : OpenResult)       (* the thread enters [run] *)
  | EvIter (r : ReadResult)      (* one loop test and pass *)
  | EvGet                        (* a consumer calls [get_frame] *)
  | EvStop.                      (* the manager calls [stop] *)

Definition step (e : Event) (t : CameraThread) : CameraThread :=
  match e with
  | EvRun o =>
      if started t && bool_decide (phase (locals t) = Created)
      then run_begin o t else t
  | EvIter r =>
      if bool_decide (phase (locals t) = Reading) then run_iteration r t else t
  | EvGet => (get_frame t).2
  | EvStop => stop t
  end.

(** The events of [es], first to last. *)
Definition exec (es : list Event) (t : CameraThread) : CameraThread :=
  foldl (λ t e, step e t) t es.

(** States a thread object can be in. *)
Definition reachable (t : CameraThread) : Prop :=
  ∃ index cfg es, t = exec es (start (new_thread index cfg)).

(** ** [class ConfigManager] *)

(** [self.config] is the parsed file; [cameras] is its ["cameras"] list. *)
Record ConfigManager := mkConfigManager {
  config_file : string;
  cameras : list (gmap string JVal);
}.

(** The dictionary both [get_default_config] and the else branch of
    [get_camera_config] build for index [i]. *)
Definition default_camera (i : Z) : gmap string JVal :=
  <["enabled" := JBool false]>
  (<["source_type" := JStr "rtsp"]>
  (<["url" := JStr ""]>
  (<["device" := JInt 0]>
  (<["name" := JStr ("Camera " +:+ pretty (i + 1))]> ∅)))).

(** [get_default_config]: [range(48)] disabled cameras. *)
Definition get_default_config : list (gmap string JVal) :=
  default_camera <$> seqZ 0 48.

(** [get_camera_config]; [l[i]] cannot fail under the range test. *)
Definition get_camera_config (cm : ConfigManager) (camera_index : Z)
  : gmap string JVal :=
  if bool_decide (0 ≤ camera_index < Z.of_nat (length (cameras cm))) then
    default (default_camera camera_index) (cameras cm !! Z.to_nat camera_index)
  else
    default_camera camera_index.

(** [set_camera_config], without the write to the file. *)
Definition set_camera_config (cm : ConfigManager) (camera_index : Z)
    (camera_config : gmap string JVal) : bool * ConfigManager :=
  if bool_decide (0 ≤ camera_index < Z.of_nat (length (cameras cm))) then
    (true, mkConfigManager (config_file cm)
             (<[Z.to_nat camera_index := camera_config]> (cameras cm)))
  else
    (false, cm).

(** *** [test_camera_connection]

    The probe runs against a device and may raise; both are explicit. *)

(** A Python exception, as far as [str(e)] is concerned. *)
Inductive PyExn :=
  | KeyError (key : string)
  | CvError (what : string).

Definition exn_str (e : PyExn) : string :=
  match e with
  | KeyError key => "'" +:+ key +:+ "'"
  | CvError what => what
  end.

(** A call made on OpenCV, in the order made. *)
Inductive CapCall :=
  | CallOpen (target : JVal)   (* [cv2.VideoCapture(target)] *)
  | CallRead                   (* [cap.read()] *)
  | CallRelease.               (* [cap.release()] *)

(** How the outside world answers one probe. *)
Record Device := mkDevice {
  dev_open : JVal → OpenResult;
  dev_read : ReadResult;
  dev_what : string;           (* text of the exception raised, if any *)
}.

(** Computations that log their OpenCV calls and may raise. *)
Definition Probe (A : Type) : Type :=
  list CapCall → (PyExn + A) * list CapCall.

Global Instance Probe_ret : MRet Probe := λ A (x : A) log, (inr x, log).

Global Instance Probe_bind : MBind Probe := λ A B (f : A → Probe B) (m : Probe A) log,
  match m log with
  | (inl e, log') => (inl e, log')
  | (inr x, log') => f x log'
  end.

Definition raise {A} (e : PyExn) : Probe A := λ log, (inl e, log).

Definition call (c : CapCall) : Probe () := λ log, (inr (), log ++ [c]).

(** [try: body  except Exception as e: handler e] *)
Definition try_except {A} (body : Probe A) (handler : PyExn → Probe A) : Probe A :=
  λ log,
  match body log with
  | (inl e, log') => handler e log'
  | (inr x, log') => (inr x, log')
  end.

(** [d[key]] *)
Definition getitem (d : gmap string JVal) (key : string) : Probe JVal :=
  match d !! key with
  | Some v => mret v
  | None => raise (KeyError key)
  end.

(** [cap = cv2.VideoCapture(target); cap.isOpened()] *)
Definition video_capture (dev : Device) (target : JVal) : Probe bool :=
  call (CallOpen target);;
  match dev_open dev target with
  | OpenOk => mret true
  | OpenFailed => mret false
  | OpenError => raise (CvError (dev_what dev))
  end.

(** [ret, frame = cap.read()], giving [ret]. *)
Definition cap_read (dev : Device) : Probe bool :=
  call CallRead;;
  match dev_read dev with
  | ReadOk _ => mret true
  | ReadFail => mret false
  | ReadError => raise (CvError (dev_what dev))
  end.

Definition cap_release : Probe () := call CallRelease.

(** The body of the [try] in [test_camera_connection]. *)
Definition test_camera_connection_body (dev : Device) (config : gmap string JVal)
  : Probe (bool * string) :=
  source_type ← getitem config "source_type";
  if bool_decide (source_type = JStr "rtsp") then
    url ← getitem config "url";
    if negb (truthy url) then mret (false, "RTSP URL is empty")
    else
      opened ← video_capture dev url;
      success ← (if opened : bool then cap_read dev else mret false);
      cap_release;;
      if negb success then mret (false, "Failed to connect to RTSP stream")
      else mret (true, "Connection successful")
  else
    device_id ← getitem config "device";
    opened ← video_capture dev device_id;
    success ← (if opened : bool then cap_read dev else mret false);
    cap_release;;
    if negb success then
      mret (false, "Failed to connect to local camera device " +:+ py_str device_id)
    else mret (true, "Connection successful").

(** [ConfigManager.test_camera_connection], started with an empty log. *)
Definition test_camera_connection (dev : Device) (camera_index : Z)
    (config : gmap string JVal) : (PyExn + bool * string) * list CapCall :=
  try_except (test_camera_connection_body dev config)
    (λ e, mret (false, "Error testing connection: " +:+ exn_str e)) [].

(** ** [class CameraManager] *)

(** [retired] is ghost: the thread objects the dictionary no longer holds,
    each as [stop_camera] left it. *)
Record CameraManager := mkManager {
  config_manager : ConfigManager;
  camera_threads : gmap Z CameraThread;
  retired : list CameraThread;
}.

Module Manager.

(** [stop_camera] *)
Definition stop_camera (camera_index : Z) (m : CameraManager) : CameraManager :=
  match camera_threads m !! camera_index with
  | Some t =>
      mkManager (config_manager m) (delete camera_index (camera_threads m))
                (stop t :: retired m)
  | None => m
  end.

(** [stop_all_cameras]: [for camera_index in list(self.camera_threads.keys())].
    The keys are taken before the loop; their order does not show in the
    result. *)
Definition stop_all_cameras (m : CameraManager) : CameraManager :=
  foldl (λ m i, stop_camera i m) m (map_to_list (camera_threads m)).*1.

(** One pass of the [for i in range(48)] loop of [reload_config]. The
    thread is stored as [start] leaves it; from [start] on its own steps
    ([EvRun], [EvIter]) may take place, also while the loop goes on. *)
Definition start_if_enabled (m : CameraManager) (i : Z) : CameraManager :=
  let config := get_camera_config (config_manager m) i in
  if truthy (dict_get config "enabled" (JBool false)) then
    mkManager (config_manager m)
              (<[i := start (new_thread i config)]> (camera_threads m))
              (retired m)
  else m.

(** [reload_config] *)
Definition reload_config (m : CameraManager) : CameraManager :=
  let m := stop_all_cameras m in
  let m := mkManager (config_manager m) ∅ (retired m) in   (* [.clear()] *)
  foldl start_if_enabled m (seqZ 0 48).

(** [CameraManager.__init__] *)
Definition init (cm : ConfigManager) : CameraManager :=
  reload_config (mkManager cm ∅ []).

(** [CameraManager.get_frame]: the returned value and the manager after
    (the thread's queue may have lost its head). *)
Definition get_frame (camera_index : Z) (m : CameraManager)
  : option Frame * CameraManager :=
  match camera_threads m !! camera_index with
  | Some t =>
      if connected t then
        let r := get_frame t in
        (r.1, mkManager (config_manager m)
                        (<[camera_index := r.2]> (camera_threads m)) (retired m))
      else (None, m)
  | None => (None, m)
  end.

(** [is_camera_connected] *)
Definition is_camera_connected (camera_index : Z) (m : CameraManager) : bool :=
  match camera_threads m !! camera_index with
  | Some t => connected t
  | None => false
  end.

End Manager.

(** ** Vocabulary of the properties *)

(** The queue after the producer has published [fs], first to last, with
    nobody taking frames out. *)
Definition pushes (fs : list Frame) (q : list Frame) : list Frame :=
  foldl (λ q f, queue_of (publish f q)) q fs.

(** What holds of a thread object in every state it can be in. *)
Record thread_ok (t : CameraThread) : Prop := mkThreadOk {
  ok_queue : Queue.qsize (frame_queue t) ≤ frame_queue_maxsize;
  ok_connected :
    connected t = true →
    phase (locals t) = Reading ∧ cap (locals t) = Opened ∧
    read_failures (locals t) ≤ 5;
  ok_latest : (0 < good_reads (locals t))%nat → is_Some (latest_frame t);
  ok_created :
    phase (locals t) = Created →
    cap (locals t) = NoCapture ∧ good_reads (locals t) = 0%nat ∧
    latest_frame t = None;
}.

(** [n] failed reads in a row. *)
Definition failures (n : nat) : list Event := replicate n (EvIter ReadFail).

(** [stop_camera] on each key of a list, first to last. *)
Definition stop_each (keys : list Z) (m : CameraManager) : CameraManager :=
  foldl (λ m i, Manager.stop_camera i m) m keys.

(** A network source without a URL. *)
Definition empty_target (cfg : gmap string JVal) : Prop :=
  get_is_str cfg "source_type" "rtsp" = true ∧
  truthy (dict_get cfg "url" (JStr "")) = false.

(** A thread built on a network source without URL never gets past the
    test at the top of [run]. *)
Record never_opened (cfg : gmap string JVal) (t : CameraThread) : Prop := mkNeverOpened {
  no_config : config t = cfg;
  no_connected : connected t = false;
  no_cap : cap (locals t) = NoCapture;
  no_phase : phase (locals t) ≠ Reading;
  no_latest : latest_frame t = None;
  no_queue : frame_queue t = [];
}.

(** The argument [test_camera_connection] gives to [cv2.VideoCapture], if
    it gets that far. *)
Definition probe_target (config : gmap string JVal) : option JVal :=
  match config !! "source_type" with
  | None => None
  | Some source_type =>
      if bool_decide (source_type = JStr "rtsp") then
        match config !! "url" with
        | Some url => if truthy url then Some url else None
        | None => None
        end
      else config !! "device"
  end.

(** Sample configurations. *)
Definition local_camera : gmap string JVal :=
  <["enabled" := JBool true]>
  (<["source_type" := JStr "local"]> (<["device" := JInt 0]> ∅)).

Definition rtsp_without_url : gmap string JVal :=
  <["enabled" := JBool true]> (default_camera 0).

Definition rtsp_camera : gmap string JVal :=
  <["url" := JStr "rtsp://10.0.0.7/stream"]> rtsp_without_url.

(** A thread on [local_camera] whose source has just been opened. *)
Definition just_connected : CameraThread :=
  exec [EvRun OpenOk] (start (new_thread 0 local_camera)).

(** ** The configuration file ([load_config], [save_config]) *)

Module Store.

(** What [json.load] finds in the file. A document is the object
    [{"cameras": [...]}] the program writes; JSON of another shape is left
    out (the program would take it and fail later, in
    [get_camera_config]). *)
Inductive Content :=
  | EmptyFile                                       (* no byte: not JSON *)
  | Garbage                                         (* text that is not JSON *)
  | Undecodable                                     (* bytes that are not text *)
  | Document (cams : list (gmap string JVal)).

(** The path [config_file] on the disk: the file if it exists, whether
    [open(.., 'r')] succeeds on it, and whether [open(.., 'w')] succeeds. *)
Record Disk := mkDisk {
  file : option Content;
  readable : bool;
  writable : bool;
}.

(** The exceptions [load_config] and [save_config] let through. *)
Inductive Raised :=
  | AttributeError (name : string)
  | UnicodeDecodeError.

(** [save_config]. [self_config] is the attribute [self.config], [None]
    while [__init__] has not assigned it. [open(.., 'w')] creates or
    empties the file before [self.config] is evaluated; an [IOError] is
    caught, an [AttributeError] is not. *)
Definition save_config (self_config : option (list (gmap string JVal)))
    (d : Disk) : (Raised + bool) * Disk :=
  if writable d then
    match self_config with
    | Some cams => (inr true, mkDisk (Some (Document cams)) (readable d) (writable d))
    | None => (inl (AttributeError "config"),
               mkDisk (Some EmptyFile) (readable d) (writable d))
    end
  else (inr false, d).

(** [load_config]: what it returns (to become [self.config]). *)
Definition load_config (self_config : option (list (gmap string JVal)))
    (d : Disk) : (Raised + list (gmap string JVal)) * Disk :=
  match file d with
  | Some content =>                                  (* [os.path.exists] *)
      if readable d then
        match content with
        | Document cams => (inr cams, d)
        | EmptyFile | Garbage => (inr get_default_config, d)   (* [JSONDecodeError] *)
        | Undecodable => (inl UnicodeDecodeError, d)  (* caught by neither clause *)
        end
      else (inr get_default_config, d)               (* [IOError] *)
  | None =>
      let config := get_default_config in
      match save_config self_config d with
      | (inl e, d') => (inl e, d')
      | (inr _, d') => (inr config, d')
      end
  end.

(** [ConfigManager.__init__]: [self.config = self.load_config()]. *)
Definition init (config_file : string) (d : Disk) : (Raised + ConfigManager) * Disk :=
  match load_config None d with
  | (inl e, d') => (inl e, d')
  | (inr cams, d') => (inr (mkConfigManager config_file cams), d')
  end.

(** [set_camera_config] with its write to the file. The result of
    [save_config] is dropped. *)
Definition set_camera_config (cm : ConfigManager) (camera_index : Z)
    (camera_config : gmap string JVal) (d : Disk) : bool * ConfigManager * Disk :=
  if bool_decide (0 ≤ camera_index < Z.of_nat (length (cameras cm))) then
    let cm' := mkConfigManager (config_file cm)
                 (<[Z.to_nat camera_index := camera_config]> (cameras cm)) in
    (true, cm', (save_config (Some (cameras cm')) d).2)
  else (false, cm, d).

End Store.

(** ** [class CameraView]: what a view puts on the screen *)

Module View.

Inductive Display :=
  | Untouched                                        (* the view is hidden *)
  | Picture (frame : Frame)
  | Placeholder (camera_name status_text : string).

(** [show_placeholder]; the text drawn is the name, a newline, the status. *)
Definition show_placeholder (camera_index : Z) (m : CameraManager) : Display :=
  let config := get_camera_config (config_manager m) camera_index in
  let camera_name :=
    dict_get config "name" (JStr ("Camera " +:+ pretty (camera_index + 1))) in
  let status_text :=
    if truthy (dict_get config "enabled" (JBool false))
    then "Connecting..." else "Disabled" in
  Placeholder (py_str camera_name) status_text.

(** [update_frame], with [visible] the answer of [self.isVisible()]. *)
Definition update_frame (visible : bool) (camera_index : Z) (m : CameraManager)
  : Display * CameraManager :=
  if negb visible then (Untouched, m)
  else if Manager.is_camera_connected camera_index m then
    let r := Manager.get_frame camera_index m in
    match r.1 with
    | Some frame => (Picture frame, r.2)
    | None => (show_placeholder camera_index r.2, r.2)
    end
  else (show_placeholder camera_index m, m).

End View.

(** ** [class CameraGridWindow]: screens and focus *)

Module Grid.

(** [camera_views] holds the [camera_index] of each of the 24 grid views;
    [single_view] that of the full-size view, once it exists. *)
Record Window := mkWindow {
  current_screen : Z;
  mode : Z;                       (* 0 grid, 1 single camera *)
  focused_camera : Z;
  camera_views : list Z;
  single_view : option Z;
}.

(** The cell of grid view [i]: [(i // cols, i % cols)] with 6 columns. *)
Definition cell (i : Z) : Z * Z := (i `div` 6, i `mod` 6).

(** [update_camera_display], as far as camera indices go. *)
Definition update_camera_display (w : Window) : Window :=
  if bool_decide (mode w = 0) then
    mkWindow (current_screen w) (mode w) (focused_camera w)
             ((λ i, i + current_screen w * 24) <$> seqZ 0 24) (single_view w)
  else
    mkWindow (current_screen w) (mode w) (focused_camera w)
             (camera_views w) (Some (focused_camera w)).

(** [__init__] and [init_ui]: view [i] is built with index [i]. *)
Definition init : Window :=
  update_camera_display (mkWindow 0 0 0 (seqZ 0 24) None).

Definition on_camera_clicked (camera_index : Z) (w : Window) : Window :=
  update_camera_display
    (mkWindow (current_screen w) 1 camera_index (camera_views w) (single_view w)).

Definition on_prev_clicked (w : Window) : Window :=
  update_camera_display
    (mkWindow 0 (mode w) (focused_camera w) (camera_views w) (single_view w)).

Definition on_next_clicked (w : Window) : Window :=
  update_camera_display
    (mkWindow 1 (mode w) (focused_camera w) (camera_views w) (single_view w)).

Definition on_back_clicked (w : Window) : Window :=
  update_camera_display
    (mkWindow (current_screen w) 0 (focused_camera w) (camera_views w) (single_view w)).

(** What the user can do. Only the grid views have their [clicked] signal
    connected; the arrows of the single view go through the two lambdas. *)
Inductive Action :=
  | ClickView (i : nat)          (* a click on grid view [i] *)
  | PrevScreen | NextScreen | Back
  | PrevCamera | NextCamera.

Definition handle (a : Action) (w : Window) : Window :=
  match a with
  | ClickView i =>
      match camera_views w !! i with
      | Some camera_index => on_camera_clicked camera_index w
      | None => w
      end
  | PrevScreen => on_prev_clicked w
  | NextScreen => on_next_clicked w
  | Back => on_back_clicked w
  | PrevCamera => on_camera_clicked ((focused_camera w - 1) `mod` 48) w
  | NextCamera => on_camera_clicked ((focused_camera w + 1) `mod` 48) w
  end.

Definition run (actions : list Action) (w : Window) : Window :=
  foldl (λ w a, handle a w) w actions.

(** Every camera index the window holds is one of [range(48)]. *)
Record in_range (w : Window) : Prop := mkInRange {
  screen_ok : current_screen w = 0 ∨ current_screen w = 1;
  focus_ok : 0 ≤ focused_camera w < 48;
  views_ok : Forall (λ c, 0 ≤ c < 48) (camera_views w);
  single_ok : ∀ c, single_view w = Some c → 0 ≤ c < 48;
}.

End Grid.

(** ** More vocabulary *)

(** Number of failed reads among loop passes. *)
Fixpoint count_failures (rs : list ReadResult) : Z :=
  match rs with
  | [] => 0
  | ReadFail :: rs => 1 + count_failures rs
  | _ :: rs => count_failures rs
  end.

(** Loop passes none of which returns a frame. *)
Definition no_frame (rs : list ReadResult) : Prop :=
  Forall (λ r, r = ReadFail ∨ r = ReadError) rs.

(** The configuration of a thread lets [run] construct a capture. *)
Definition may_open (cfg : gmap string JVal) : Prop :=
  truthy (dict_get cfg "enabled" (JBool false)) = true ∧
  (get_is_str cfg "source_type" "rtsp" = true →
   truthy (dict_get cfg "url" (JStr "")) = true).

(** ** [CameraThread.run], statement by statement *)

(** The same thread cut at every statement that writes a field another
    thread reads or that calls the capture, so that [get_frame] and
    [stop] can fall between any two of them. *)
Module Fine.

(** The statement [run] is about to execute. *)
Inductive Pc :=
  | AtStart                (* l.41, [self.running = True] and the tests on the configuration *)
  | AtOpen                 (* l.57 or l.63, [cv2.VideoCapture(..)], then [isOpened()] *)
  | AtConnect              (* l.71, [self.connected = True] *)
  | AtLoopTest             (* l.76, [while self.running] *)
  | AtRead                 (* l.79, [cap.read()] and the count of failures *)
  | AtGiveUp               (* l.85-87, the warning, [self.connected = False], [break] *)
  | AtStore (frame : Frame)      (* l.95, [self.latest_frame = frame] *)
  | AtPut (frame : Frame)        (* l.99, the first [put] *)
  | AtEvict (frame : Frame)      (* l.103, the [get] *)
  | AtPutAgain (frame : Frame)   (* l.104, the second [put] *)
  | AtRelease              (* l.116, [cap.release()] *)
  | AtDisconnect           (* l.117, [self.connected = False] *)
  | Done.                  (* [run] has returned *)

(** The thread object and where its [run] stands. The [phase] of the
    object changes when the loop is entered and when [run] returns. *)
Record State := mkState {
  obj : CameraThread;
  pc : Pc;
}.

Definition set_cap (c : Capture) (t : CameraThread) : CameraThread :=
  set_locals (mkLocals (phase (locals t)) c (read_failures (locals t))
                       (good_reads (locals t))) t.

Definition set_phase (p : Phase) (t : CameraThread) : CameraThread :=
  set_locals (mkLocals p (cap (locals t)) (read_failures (locals t))
                       (good_reads (locals t))) t.

(** The next statement of [run]; [o] and [r] are what the capture does
    if that statement opens it or reads from it. *)
Definition go (o : OpenResult) (r : ReadResult) (s : State) : State :=
  let t := obj s in
  match pc s with
  | AtStart =>
      if started t then
        let t := set_running true t in
        if negb (truthy (dict_get (config t) "enabled" (JBool false))) then
          mkState (leave NoCapture t) Done
        else if get_is_str (config t) "source_type" "rtsp"
                && negb (truthy (dict_get (config t) "url" (JStr ""))) then
          mkState (leave NoCapture t) Done
        else mkState t AtOpen
      else s
  | AtOpen =>
      match o with
      | OpenError => mkState (leave NoCapture t) Done
      | OpenFailed => mkState (leave Unopened t) Done
      | OpenOk => mkState (set_cap Opened t) AtConnect
      end
  | AtConnect =>
      mkState (set_phase Reading (set_failures 0 (set_connected true t))) AtLoopTest
  | AtLoopTest =>
      if running t then mkState t AtRead else mkState t AtRelease
  | AtRead =>
      match r with
      | ReadError => mkState t AtLoopTest            (* [except Exception] *)
      | ReadFail =>
          let t := set_failures (read_failures (locals t) + 1) t in
          if bool_decide (read_failures (locals t) > 5)
          then mkState t AtGiveUp else mkState t AtLoopTest
      | ReadOk frame =>
          mkState (set_locals (mkLocals (phase (locals t)) (cap (locals t)) 0
                                        (S (good_reads (locals t)))) t)
                  (AtStore frame)
      end
  | AtGiveUp => mkState (set_connected false t) AtRelease
  | AtStore frame => mkState (set_latest_frame (Some frame) t) (AtPut frame)
  | AtPut frame =>
      match Queue.put_nowait frame_queue_maxsize frame (frame_queue t) with
      | Some q => mkState (set_frame_queue q t) AtLoopTest
      | None => mkState t (AtEvict frame)            (* [except queue.Full] *)
      end
  | AtEvict frame =>
      match Queue.get_nowait (frame_queue t) with
      | Some (_, q) => mkState (set_frame_queue q t) (AtPutAgain frame)
      | None => mkState t AtLoopTest                 (* [except queue.Empty] *)
      end
  | AtPutAgain frame =>
      match Queue.put_nowait frame_queue_maxsize frame (frame_queue t) with
      | Some q => mkState (set_frame_queue q t) AtLoopTest
      | None => mkState t AtLoopTest                 (* [except Exception] *)
      end
  | AtRelease => mkState (set_cap Released t) AtDisconnect
  | AtDisconnect => mkState (set_phase Finished (set_connected false t)) Done
  | Done => s
  end.

Inductive Event :=
  | Go (o : OpenResult) (r : ReadResult)   (* the thread's next statement *)
  | Get                                    (* a consumer calls [get_frame] *)
  | Stop.                                  (* the manager calls [stop] *)

Definition step (e : Event) (s : State) : State :=
  match e with
  | Go o r => go o r s
  | Get => mkState (get_frame (obj s)).2 (pc s)
  | Stop => mkState (stop (obj s)) (pc s)
  end.

Definition exec (es : list Event) (s : State) : State :=
  foldl (λ s e, step e s) s es.

Definition reachable (s : State) : Prop :=
  ∃ index cfg es, s = exec es (mkState (start (new_thread index cfg)) AtStart).

(** What each point of [run] knows of the capture and of [connected]. *)
Definition pc_ok (p : Pc) (t : CameraThread) : Prop :=
  match p with
  | AtStart | AtOpen => connected t = false
  | AtConnect => connected t = false ∧ cap (locals t) = Opened
  | AtLoopTest | AtRead | AtGiveUp | AtStore _ | AtPut _ | AtEvict _
  | AtPutAgain _ | AtRelease => cap (locals t) = Opened
  | AtDisconnect => cap (locals t) = Released
  | Done => connected t = false
  end.

(** A thread of the loop-pass model, seen statement by statement. *)
Definition of_thread (t : CameraThread) : State :=
  mkState t match phase (locals t) with
            | Created => AtStart
            | Reading => AtLoopTest
            | Finished => Done
            end.

End Fine.

(** * Properties *)

(** ** The hand-off queue *)

Section queue_facts.
Implicit Types (q : list Frame) (f : Frame).

Lemma put_nowait_room q f :
  Queue.qsize q < frame_queue_maxsize →
  Queue.put_nowait frame_queue_maxsize f q = Some (q ++ [f]).
Proof.
  intros Hlt. unfold Queue.put_nowait, Queue.full.
  rewrite bool_decide_eq_false_2; [done|]. unfold frame_queue_maxsize in *. lia.
Qed.

Lemma put_nowait_full q f :
  frame_queue_maxsize ≤ Queue.qsize q →
  Queue.put_nowait frame_queue_maxsize f q = None.
Proof.
  intros Hge. unfold Queue.put_nowait, Queue.full.
  rewrite bool_decide_eq_true_2; [done|]. unfold frame_queue_maxsize in *. lia.
Qed.

(** A queue with room takes the frame at its tail. *)
Lemma publish_room q f :
  Queue.qsize q < frame_queue_maxsize → publish f q = Published (q ++ [f]).
Proof. intros Hlt. unfold publish. by rewrite put_nowait_room. Qed.

(** A queue holding exactly [maxsize] frames loses its head. *)
Lemma publish_full q f :
  Queue.qsize q = frame_queue_maxsize → publish f q = Published (tail q ++ [f]).
Proof.
  intros Hfull. unfold publish. rewrite put_nowait_full by lia.
  destruct q as [|old rest]; [done|]. simpl.
  rewrite put_nowait_room; [done|].
  unfold Queue.qsize in *. simpl in Hfull. lia.
Qed.

Lemma publish_qsize q f :
  Queue.qsize q ≤ frame_queue_maxsize →
  Queue.qsize (queue_of (publish f q)) ≤ frame_queue_maxsize.
Proof.
  intros Hle.
  destruct (decide (Queue.qsize q = frame_queue_maxsize)) as [Hfull|Hroom].
  - rewrite publish_full by done. simpl.
    destruct q as [|old rest]; unfold Queue.qsize, frame_queue_maxsize in *;
      simpl in *; rewrite ?length_app; simpl; lia.
  - rewrite publish_room by lia. simpl.
    unfold Queue.qsize, frame_queue_maxsize in *. rewrite length_app. simpl. lia.
Qed.

Lemma pushes_qsize fs q :
  Queue.qsize q ≤ frame_queue_maxsize →
  Queue.qsize (pushes fs q) ≤ frame_queue_maxsize.
Proof.
  revert q. induction fs as [|f fs IH]; intros q Hle; [done|].
  simpl. apply IH. by apply publish_qsize.
Qed.

Lemma pushes_snoc fs f q :
  pushes (fs ++ [f]) q = queue_of (publish f (pushes fs q)).
Proof. unfold pushes. by rewrite foldl_app. Qed.

End queue_facts.

(** C4. Whatever frames the producer has published into the empty queue,
    the queue holds at most 2 of them; publishing one more frame ends
    normally (both queue calls are non-blocking and no exception leaves
    the block), and if the queue is full the new queue is the old one
    without its oldest frame, followed by the new frame. *)
Theorem C4_queue_bounded_drop_oldest (fs : list Frame) (f : Frame) :
  let q := pushes fs [] in
  Queue.qsize q ≤ frame_queue_maxsize ∧
  ∃ q', publish f q = Published q' ∧
        q' = (if Queue.full frame_queue_maxsize q then tail q else q) ++ [f].
Proof.
  intros q.
  assert (Hle : Queue.qsize q ≤ frame_queue_maxsize) by (by apply pushes_qsize).
  split; [done|].
  unfold Queue.full. case_bool_decide as Hfull.
  - exists (tail q ++ [f]). split; [|done]. apply publish_full. lia.
  - exists (q ++ [f]). split; [|done]. apply publish_room.
    unfold frame_queue_maxsize in *. lia.
Qed.

(** ** The capture loop *)

Lemma exec_app es1 es2 t : exec (es1 ++ es2) t = exec es2 (exec es1 t).
Proof. unfold exec. by rewrite foldl_app. Qed.

Lemma exec_cons e es t : exec (e :: es) t = exec es (step e t).
Proof. done. Qed.

(** Unfold one transition of a thread given by its fields. *)
Ltac crush_step :=
  unfold step, run_begin, run_iteration, clean_up, leave, get_frame, stop,
    set_failures, set_running, set_connected, set_frame_queue,
    set_latest_frame, set_locals, Queue.get_nowait in *;
  simpl in *.

Lemma new_thread_ok index cfg : thread_ok (start (new_thread index cfg)).
Proof. split; simpl; try done. lia. Qed.

Lemma step_ok e t : thread_ok t → thread_ok (step e t).
Proof.
  intros [Hq Hc Hl Hcr].
  destruct t as [ix cfg run con q lf tmo st [ph cp rf gr]]; simpl in *.
  destruct e as [o|r| |].
  - (* [run] begins *)
    crush_step.
    destruct st; simpl; [|by split].
    case_bool_decide as Hph; simpl; [|by split]. subst ph.
    destruct (Hcr eq_refl) as (-> & -> & ->).
    destruct con; [by destruct (Hc eq_refl) as [? _]|].
    repeat (case_match; simpl); split; simpl; try done; try lia;
      intros; try done; try lia.
  - (* one pass of the loop *)
    crush_step.
    case_bool_decide as Hph; simpl; [|by split]. subst ph.
    destruct run; simpl; [|split; simpl; try done; intros; done].
    destruct r as [f| |]; simpl.
    + split; simpl; [| |by eauto|done].
      * by apply publish_qsize.
      * intros Hcon. destruct (Hc Hcon) as (_ & -> & _). repeat split; lia.
    + case_bool_decide; simpl; split; simpl; try done.
      intros Hcon. destruct (Hc Hcon) as (_ & -> & _). repeat split; lia.
    + by split.
  - (* a consumer takes a frame *)
    crush_step. destruct q as [|f q]; simpl; [by split|].
    split; simpl; try done.
    unfold Queue.qsize in *. simpl in *. lia.
  - (* the manager stops the thread *)
    crush_step. by split.
Qed.

Lemma exec_ok es t : thread_ok t → thread_ok (exec es t).
Proof.
  revert t. induction es as [|e es IH]; intros t Hok; [done|].
  rewrite exec_cons. apply IH. by apply step_ok.
Qed.

Lemma reachable_ok t : reachable t → thread_ok t.
Proof. intros (index & cfg & es & ->). apply exec_ok, new_thread_ok. Qed.

Lemma reachable_exec es t : reachable t → reachable (exec es t).
Proof.
  intros (index & cfg & es0 & ->). exists index, cfg, (es0 ++ es).
  by rewrite exec_app.
Qed.

(** No transition takes the last frame away. *)
Lemma step_keeps_latest e t : is_Some (latest_frame t) → is_Some (latest_frame (step e t)).
Proof.
  intros Hl. destruct t as [ix cfg run con q lf tmo st [ph cp rf gr]]; simpl in *.
  destruct e as [o|r| |]; crush_step; repeat (case_match; simpl); eauto.
Qed.

Lemma exec_keeps_latest es t : is_Some (latest_frame t) → is_Some (latest_frame (exec es t)).
Proof.
  revert t. induction es as [|e es IH]; intros t Hl; [done|].
  rewrite exec_cons. by apply IH, step_keeps_latest.
Qed.

(** [stop] only lowers the flag: the capture is still as it was when
    [stop] returns, unless the thread got to its loop test meanwhile. *)
Lemma stop_leaves_locals t : locals (stop t) = locals t.
Proof. done. Qed.


(** One failed read in a loop that is still allowed to run. *)
Lemma read_fail_step t :
  phase (locals t) = Reading → running t = true →
  step (EvIter ReadFail) t =
    let t' := set_failures (read_failures (locals t) + 1) t in
    if bool_decide (read_failures (locals t) + 1 > 5)
    then clean_up (set_connected false t') else t'.
Proof.
  intros Hph Hrun. unfold step. rewrite Hph, bool_decide_eq_true_2 by done.
  unfold run_iteration. rewrite Hrun. simpl. done.
Qed.

(** Below the threshold the loop only counts. *)
Lemma failures_below n t :
  phase (locals t) = Reading → running t = true →
  read_failures (locals t) + Z.of_nat n ≤ 5 →
  exec (failures n) t = set_failures (read_failures (locals t) + Z.of_nat n) t.
Proof.
  revert t. induction n as [|n IH]; intros t Hph Hrun Hle.
  - simpl. destruct t as [ix cfg run con q lf tmo st [ph cp rf gr]].
    unfold set_failures, set_locals. simpl. do 2 f_equal. lia.
  - unfold failures. simpl replicate. rewrite exec_cons, read_fail_step by done.
    cbv zeta. rewrite bool_decide_eq_false_2 by lia.
    fold (failures n). rewrite IH; simpl; [|done|done|lia].
    destruct t as [ix cfg run con q lf tmo st [ph cp rf gr]].
    unfold set_failures, set_locals. simpl. do 2 f_equal. lia.
Qed.

(** Once [run] has returned, failed reads change nothing. *)
Lemma failures_finished n t :
  phase (locals t) = Finished → exec (failures n) t = t.
Proof.
  intros Hph. induction n as [|n IH]; [done|].
  unfold failures. simpl replicate. rewrite exec_cons. fold (failures n).
  unfold step at 1. rewrite Hph. simpl. done.
Qed.

(** C1. In a loop that is reading and has not been told to stop: a
    failed read adds one to the failure counter; as long as the counter
    stays at 5 or less the loop remains connected, keeps its capture open
    and goes on reading, and a successful read then puts the counter back
    to 0 and stores the frame; the failure that takes the counter above 5
    (the 6th in a row after a success) sets [connected] to false, releases
    the capture and ends [run]. *)
Theorem C1_six_failures_disconnect (t : CameraThread) :
  phase (locals t) = Reading → running t = true →
  connected t = true → cap (locals t) = Opened →
  read_failures (locals (step (EvIter ReadFail) t)) = read_failures (locals t) + 1 ∧
  (∀ n : nat, read_failures (locals t) + Z.of_nat n ≤ 5 →
     let t' := exec (failures n) t in
     connected t' = true ∧ phase (locals t') = Reading ∧
     cap (locals t') = Opened ∧
     read_failures (locals t') = read_failures (locals t) + Z.of_nat n ∧
     ∀ f, let t'' := step (EvIter (ReadOk f)) t' in
          read_failures (locals t'') = 0 ∧ connected t'' = true ∧
          phase (locals t'') = Reading ∧ latest_frame t'' = Some f) ∧
  (∀ n : nat, read_failures (locals t) + Z.of_nat n > 5 → (0 < n)%nat →
     let t' := exec (failures n) t in
     connected t' = false ∧ cap (locals t') = Released ∧
     phase (locals t') = Finished).
Proof.
  intros Hph Hrun Hcon Hcap. split; [|split].
  - rewrite read_fail_step by done. cbv zeta.
    destruct t as [ix cfg run con q lf tmo st [ph cp rf gr]].
    case_bool_decide; done.
  - intros n Hle t'. subst t'. rewrite failures_below by done.
    destruct t as [ix cfg run con q lf tmo st [ph cp rf gr]]; simpl in *.
    subst. repeat split; done.
  - intros n. revert t Hph Hrun Hcon Hcap.
    induction n as [|n IH]; intros t Hph Hrun Hcon Hcap Hgt Hn; [lia|].
    unfold failures. simpl replicate. rewrite exec_cons. fold (failures n).
    rewrite read_fail_step by done. cbv zeta.
    case_bool_decide as Hover.
    + rewrite failures_finished by done. done.
    + assert (0 < n)%nat by lia.
      destruct t as [ix cfg run con q lf tmo st [ph cp rf gr]]; simpl in *.
      apply IH; simpl; try done; lia.
Qed.

Lemma C1_six_failures_disconnect_witness :
  connected (exec (failures 5) just_connected) = true ∧
  connected (exec (failures 6) just_connected) = false.
Proof.
  assert (Hph : phase (locals just_connected) = Reading) by (vm_compute; reflexivity).
  assert (Hrun : running just_connected = true) by (vm_compute; reflexivity).
  assert (Hcon : connected just_connected = true) by (vm_compute; reflexivity).
  assert (Hcap : cap (locals just_connected) = Opened) by (vm_compute; reflexivity).
  destruct (C1_six_failures_disconnect just_connected Hph Hrun Hcon Hcap)
    as (_ & Hstay & Hgo).
  split.
  - assert (H5 : read_failures (locals just_connected) + Z.of_nat 5 ≤ 5)
      by (vm_compute; discriminate).
    exact (proj1 (Hstay 5%nat H5)).
  - assert (H6 : read_failures (locals just_connected) + Z.of_nat 6 > 5)
      by (vm_compute; reflexivity).
    exact (proj1 (Hgo 6%nat H6 (Nat.lt_0_succ 5))).
Defined.

(** ** What [get_frame] hands out *)

(** With frames waiting in the queue, [get_frame] answers with the head
    of the queue, the oldest one. *)
Lemma get_frame_head f rest t :
  frame_queue t = f :: rest →
  get_frame t = (Some f, set_frame_queue rest t).
Proof. intros Hq. unfold get_frame. by rewrite Hq. Qed.

(** With an empty queue it answers with [latest_frame]. *)
Lemma get_frame_empty t :
  frame_queue t = [] → get_frame t = (latest_frame t, t).
Proof. intros Hq. unfold get_frame. by rewrite Hq. Qed.

(** After a successful read the new frame is [latest_frame] and sits at
    the tail of the queue. *)
Lemma read_ok_step f t :
  phase (locals t) = Reading → running t = true →
  Queue.qsize (frame_queue t) ≤ frame_queue_maxsize →
  let t' := step (EvIter (ReadOk f)) t in
  latest_frame t' = Some f ∧
  frame_queue t' =
    (if Queue.full frame_queue_maxsize (frame_queue t)
     then tail (frame_queue t) else frame_queue t) ++ [f].
Proof.
  intros Hph Hrun Hle. unfold step. rewrite Hph, bool_decide_eq_true_2 by done.
  unfold run_iteration. rewrite Hrun. simpl. split; [done|].
  unfold Queue.full. case_bool_decide as Hfull.
  - rewrite publish_full; [done|]. lia.
  - rewrite publish_room; [done|]. unfold frame_queue_maxsize in *. lia.
Qed.

(** C2. The source is opened and delivers the frames [a], [b], [c], with
    no [get_frame] in between. The frame pushed last is [c], and it is
    what [latest_frame] holds, but [get_frame] answers [b], the older of
    the two queued frames; only the call after that answers [c]. *)
Theorem C2_get_frame_answers_oldest_queued (a b c : Frame) :
  let t := exec [EvIter (ReadOk a); EvIter (ReadOk b); EvIter (ReadOk c)]
                just_connected in
  latest_frame t = Some c ∧
  frame_queue t = [b; c] ∧
  (get_frame t).1 = Some b ∧
  (get_frame (get_frame t).2).1 = Some c.
Proof. vm_compute. done. Qed.

(** C3, as stated, fails: right after a successful open the flag is
    already true and nothing has been read. *)
Lemma C3_connected_before_first_read :
  ¬ (∀ t, reachable t → connected t = true → (0 < good_reads (locals t))%nat).
Proof.
  intros Hclaim.
  assert (Hr : reachable just_connected).
  { exists 0, local_camera, [EvRun OpenOk]. reflexivity. }
  assert (Hc : connected just_connected = true) by (vm_compute; reflexivity).
  specialize (Hclaim just_connected Hr Hc).
  vm_compute in Hclaim. lia.
Qed.

(** C10. Once a thread has read a frame successfully, whatever happens
    to it afterwards (more reads, failed or not, the loop ending, calls of
    [get_frame] and [stop]), [latest_frame] holds a frame and [get_frame]
    returns a frame. *)
Theorem C10_get_frame_never_empty_again (t : CameraThread) (es : list Event) :
  reachable t → (0 < good_reads (locals t))%nat →
  is_Some (latest_frame (exec es t)) ∧ is_Some (get_frame (exec es t)).1.
Proof.
  intros Hr Hgood.
  assert (Hl : is_Some (latest_frame (exec es t))).
  { apply exec_keeps_latest. by apply (ok_latest t (reachable_ok t Hr)). }
  split; [done|].
  destruct (frame_queue (exec es t)) as [|f rest] eqn:Hq.
  - by rewrite get_frame_empty.
  - rewrite (get_frame_head f rest) by done. by eexists.
Qed.

Lemma C10_get_frame_never_empty_again_witness :
  is_Some (get_frame (exec (EvGet :: EvGet :: failures 6)
                           (exec [EvIter (ReadOk 7%nat)] just_connected))).1.
Proof.
  assert (Hr : reachable (exec [EvIter (ReadOk 7%nat)] just_connected)).
  { apply reachable_exec. exists 0, local_camera, [EvRun OpenOk]. reflexivity. }
  assert (Hg : (0 < good_reads (locals (exec [EvIter (ReadOk 7%nat)] just_connected)))%nat)
    by (vm_compute; lia).
  exact (proj2 (C10_get_frame_never_empty_again _ (EvGet :: EvGet :: failures 6) Hr Hg)).
Defined.

(** ** The supervisor *)

Section manager_facts.
Implicit Types (m : CameraManager) (i : Z) (t : CameraThread).

Lemma stop_camera_config i m :
  config_manager (Manager.stop_camera i m) = config_manager m.
Proof. unfold Manager.stop_camera. by case_match. Qed.

Lemma stop_camera_lookup i j m :
  camera_threads (Manager.stop_camera i m) !! j =
    if decide (i = j) then None else camera_threads m !! j.
Proof.
  unfold Manager.stop_camera. destruct (camera_threads m !! i) eqn:Hi; simpl.
  - by rewrite lookup_delete.
  - case_decide; [by subst|done].
Qed.

Lemma stop_camera_retired_mono i m t :
  t ∈ retired m → t ∈ retired (Manager.stop_camera i m).
Proof.
  unfold Manager.stop_camera. case_match; simpl; [|done].
  intros Hin. apply elem_of_cons. by right.
Qed.

Lemma stop_camera_retires i m t :
  camera_threads m !! i = Some t → stop t ∈ retired (Manager.stop_camera i m).
Proof.
  intros Hi. unfold Manager.stop_camera. rewrite Hi. simpl.
  apply elem_of_cons. by left.
Qed.

Lemma stop_each_retired_mono keys m t :
  t ∈ retired m → t ∈ retired (stop_each keys m).
Proof.
  revert m. induction keys as [|k keys IH]; intros m Hin; [done|].
  simpl. by apply IH, stop_camera_retired_mono.
Qed.

Lemma stop_each_config keys m :
  config_manager (stop_each keys m) = config_manager m.
Proof.
  revert m. induction keys as [|k keys IH]; intros m; [done|].
  simpl. by rewrite IH, stop_camera_config.
Qed.

Lemma stop_each_retires keys m i t :
  i ∈ keys → camera_threads m !! i = Some t →
  stop t ∈ retired (stop_each keys m).
Proof.
  revert m. induction keys as [|k keys IH]; intros m Hin Hi.
  - by apply elem_of_nil in Hin.
  - simpl. destruct (decide (k = i)) as [->|Hne].
    + by apply stop_each_retired_mono, stop_camera_retires.
    + apply elem_of_cons in Hin as [?|Hin]; [congruence|].
      apply IH; [done|]. rewrite stop_camera_lookup. by case_decide.
Qed.

Lemma stop_each_lookup keys m i :
  camera_threads (stop_each keys m) !! i =
    if decide (i ∈ keys) then None else camera_threads m !! i.
Proof.
  revert m. induction keys as [|k keys IH]; intros m.
  - destruct (decide (i ∈ [])) as [Hin|]; [by apply elem_of_nil in Hin|done].
  - change (stop_each (k :: keys) m) with (stop_each keys (Manager.stop_camera k m)).
    rewrite IH, stop_camera_lookup.
    destruct (decide (k = i)) as [->|Hne].
    + rewrite (decide_True (P := i ∈ i :: keys)) by (apply elem_of_cons; by left).
      by case_decide.
    + destruct (decide (i ∈ keys)) as [Hin|Hin].
      * rewrite (decide_True (P := i ∈ k :: keys)); [done|].
        apply elem_of_cons. by right.
      * rewrite (decide_False (P := i ∈ k :: keys)); [done|].
        intros [?|?]%elem_of_cons; [congruence|done].
Qed.

(** [stop_all_cameras] leaves the dictionary empty. *)
Lemma stop_all_cameras_empty m :
  camera_threads (Manager.stop_all_cameras m) = ∅.
Proof.
  apply map_eq. intros i. rewrite lookup_empty.
  unfold Manager.stop_all_cameras. fold (stop_each (map_to_list (camera_threads m)).*1 m).
  rewrite stop_each_lookup. case_decide as Hin; [done|].
  destruct (camera_threads m !! i) as [t|] eqn:Hi; [|done].
  exfalso. apply Hin. apply list_elem_of_fmap. exists (i, t).
  split; [done|]. by apply elem_of_map_to_list.
Qed.

Lemma stop_all_cameras_retires m i t :
  camera_threads m !! i = Some t →
  stop t ∈ retired (Manager.stop_all_cameras m).
Proof.
  intros Hi. unfold Manager.stop_all_cameras.
  fold (stop_each (map_to_list (camera_threads m)).*1 m).
  apply (stop_each_retires _ _ i); [|done].
  apply list_elem_of_fmap. exists (i, t). split; [done|].
  by apply elem_of_map_to_list.
Qed.

(** The loop of [reload_config] over a list of indices. *)
Lemma start_if_enabled_config m i :
  config_manager (Manager.start_if_enabled m i) = config_manager m.
Proof. unfold Manager.start_if_enabled. by case_match. Qed.

Lemma start_if_enabled_retired m i :
  retired (Manager.start_if_enabled m i) = retired m.
Proof. unfold Manager.start_if_enabled. by case_match. Qed.

Lemma start_each_config (l : list Z) m :
  config_manager (foldl Manager.start_if_enabled m l) = config_manager m.
Proof.
  revert m. induction l as [|k l IH]; intros m; [done|].
  simpl. by rewrite IH, start_if_enabled_config.
Qed.

Lemma start_each_retired (l : list Z) m :
  retired (foldl Manager.start_if_enabled m l) = retired m.
Proof.
  revert m. induction l as [|k l IH]; intros m; [done|].
  simpl. by rewrite IH, start_if_enabled_retired.
Qed.

Lemma start_if_enabled_lookup m k i :
  camera_threads (Manager.start_if_enabled m k) !! i =
    let config := get_camera_config (config_manager m) k in
    if truthy (dict_get config "enabled" (JBool false))
    then (if decide (k = i) then Some (start (new_thread k config))
          else camera_threads m !! i)
    else camera_threads m !! i.
Proof.
  unfold Manager.start_if_enabled. cbv zeta. case_match; simpl; [|done].
  by rewrite lookup_insert.
Qed.

Lemma start_each_lookup (l : list Z) m i :
  camera_threads (foldl Manager.start_if_enabled m l) !! i =
    let config := get_camera_config (config_manager m) i in
    if decide (i ∈ l) then
      if truthy (dict_get config "enabled" (JBool false))
      then Some (start (new_thread i config)) else camera_threads m !! i
    else camera_threads m !! i.
Proof.
  revert m. induction l as [|k l IH]; intros m; cbv zeta.
  - destruct (decide (i ∈ [])) as [Hin|]; [by apply elem_of_nil in Hin|done].
  - change (foldl Manager.start_if_enabled m (k :: l))
      with (foldl Manager.start_if_enabled (Manager.start_if_enabled m k) l).
    rewrite IH. cbv zeta.
    rewrite start_if_enabled_config, start_if_enabled_lookup. cbv zeta.
    destruct (decide (k = i)) as [->|Hne].
    + rewrite (decide_True (P := i ∈ i :: l)) by (apply elem_of_cons; by left).
      destruct (truthy _); by case_decide.
    + destruct (decide (i ∈ l)) as [Hin|Hin].
      * rewrite (decide_True (P := i ∈ k :: l))
          by (apply elem_of_cons; by right).
        by repeat case_match.
      * rewrite (decide_False (P := i ∈ k :: l))
          by (intros [?|?]%elem_of_cons; [congruence|done]).
        by repeat case_match.
Qed.

(** The dictionary after [reload_config], entry by entry. *)
Lemma reload_config_lookup m i :
  camera_threads (Manager.reload_config m) !! i =
    let config := get_camera_config (config_manager m) i in
    if bool_decide (0 ≤ i < 48) && truthy (dict_get config "enabled" (JBool false))
    then Some (start (new_thread i config)) else None.
Proof.
  unfold Manager.reload_config. rewrite start_each_lookup. simpl.
  unfold Manager.stop_all_cameras.
  fold (stop_each (map_to_list (camera_threads m)).*1 m).
  rewrite stop_each_config, lookup_empty.
  case_decide as Hin; case_bool_decide as Hrange; simpl; try done.
  - exfalso. apply Hrange. apply elem_of_seqZ in Hin. lia.
  - exfalso. apply Hin. apply elem_of_seqZ. lia.
Qed.

Lemma reload_config_retired m t :
  t ∈ retired (Manager.stop_all_cameras m) → t ∈ retired (Manager.reload_config m).
Proof. unfold Manager.reload_config. by rewrite start_each_retired. Qed.

End manager_facts.

(** C5. [CameraManager.get_frame(index)]: when the dictionary has a thread
    for the index and its [connected] flag is true, the answer is that
    thread's [get_frame()] (and the thread is left as that call leaves
    it); when there is no thread, or its flag is false, the answer is
    [None] and nothing changes. [is_camera_connected(index)] is false
    when the dictionary has no thread for the index. Both are plain
    dictionary and queue look-ups: no wait, no exception. *)
Theorem C5_manager_get_frame (m : CameraManager) (index : Z) :
  (∀ t, camera_threads m !! index = Some t → connected t = true →
     (Manager.get_frame index m).1 = (get_frame t).1 ∧
     camera_threads (Manager.get_frame index m).2
       = <[index := (get_frame t).2]> (camera_threads m)) ∧
  (∀ t, camera_threads m !! index = Some t → connected t = false →
     Manager.get_frame index m = (None, m)) ∧
  (camera_threads m !! index = None →
     Manager.get_frame index m = (None, m) ∧
     Manager.is_camera_connected index m = false).
Proof.
  unfold Manager.get_frame, Manager.is_camera_connected.
  split; [|split].
  - intros t -> ->. done.
  - intros t -> ->. done.
  - intros ->. done.
Qed.

(** The answer of the supervisor for a connected thread with frames
    queued is the head of its queue. *)
Lemma C5_manager_get_frame_witness :
  let m := mkManager (mkConfigManager "camera_config.json" [local_camera])
             {[ 0 := exec [EvIter (ReadOk 4%nat)] just_connected ]} [] in
  (Manager.get_frame 0 m).1 = Some 4%nat ∧
  Manager.is_camera_connected 1 m = false.
Proof.
  intros m.
  destruct (C5_manager_get_frame m 0) as (Hyes & _ & _).
  destruct (C5_manager_get_frame m 1) as (_ & _ & Hno).
  split.
  - rewrite (proj1 (Hyes (exec [EvIter (ReadOk 4%nat)] just_connected)
                         ltac:(vm_compute; reflexivity)
                         ltac:(vm_compute; reflexivity))).
    vm_compute. reflexivity.
  - exact (proj2 (Hno ltac:(vm_compute; reflexivity))).
Defined.



(** ** Configuration errors *)

Lemma default_camera_disabled i :
  truthy (dict_get (default_camera i) "enabled" (JBool false)) = false.
Proof. unfold default_camera, dict_get. by rewrite lookup_insert_eq. Qed.

Lemma get_camera_config_out_of_range cm i :
  ¬ (0 ≤ i < Z.of_nat (length (cameras cm))) →
  get_camera_config cm i = default_camera i.
Proof. intros Hout. unfold get_camera_config. by rewrite bool_decide_eq_false_2. Qed.

Lemma never_opened_step cfg e t :
  empty_target cfg → never_opened cfg t → never_opened cfg (step e t).
Proof.
  intros [Hrtsp Hurl] [Hcfg Hcon Hcap Hph Hl Hq].
  destruct t as [ix cfg' run con q lf tmo st [ph cp rf gr]]; simpl in *. subst.
  destruct e as [o|r| |].
  - unfold step. simpl. destruct st; simpl; [|by split].
    case_bool_decide; simpl; [|by split].
    unfold run_begin. simpl. rewrite Hrtsp, Hurl. simpl.
    case_match; by split.
  - unfold step. simpl. rewrite bool_decide_eq_false_2 by done. by split.
  - unfold step, get_frame. simpl. by split.
  - unfold step, stop. simpl. by split.
Qed.

Lemma never_opened_exec cfg es t :
  empty_target cfg → never_opened cfg t → never_opened cfg (exec es t).
Proof.
  intros Hbad. revert t. induction es as [|e es IH]; intros t Hno; [done|].
  rewrite exec_cons. by apply IH, never_opened_step.
Qed.

(** C7, as stated, fails: [reload_config] builds, starts and stores a
    thread for an enabled network source without URL, and that thread
    does enter [run]. *)
Lemma C7_thread_created_for_empty_url :
  ¬ (∀ cm i t, camera_threads (Manager.init cm) !! i = Some t →
               ¬ empty_target (config t)).
Proof.
  intros Hclaim.
  apply (Hclaim (mkConfigManager "camera_config.json" [rtsp_without_url]) 0
                (start (new_thread 0 rtsp_without_url))).
  - vm_compute. reflexivity.
  - split; vm_compute; reflexivity.
Qed.

(** C7, amended. Neither kind of configuration error is refused by the
    supervisor. A thread built on a network source without URL, whatever
    happens to it, is never connected, never constructs a capture, never
    stores or queues a frame: its [run] returns at the URL test. An index
    outside the stored list is answered by [get_camera_config] with the
    default, disabled, configuration and refused by [set_camera_config];
    an index outside [range(48)] has no thread after [reload_config]. *)
Theorem C7_config_errors_stop_short (cm : ConfigManager) (index : Z)
    (cfg : gmap string JVal) (es : list Event) :
  (empty_target cfg →
     let t := exec es (start (new_thread index cfg)) in
     connected t = false ∧ cap (locals t) = NoCapture ∧
     phase (locals t) ≠ Reading ∧
     latest_frame t = None ∧ frame_queue t = []) ∧
  (¬ (0 ≤ index < Z.of_nat (length (cameras cm))) →
     get_camera_config cm index = default_camera index ∧
     truthy (dict_get (get_camera_config cm index) "enabled" (JBool false)) = false ∧
     set_camera_config cm index cfg = (false, cm)) ∧
  (¬ (0 ≤ index < 48) →
     ∀ m, camera_threads (Manager.reload_config m) !! index = None).
Proof.
  split; [|split].
  - intros Hbad t.
    assert (Hno : never_opened cfg t).
    { apply never_opened_exec; [done|]. by split. }
    destruct Hno. done.
  - intros Hout. rewrite get_camera_config_out_of_range by done.
    split; [done|]. split; [apply default_camera_disabled|].
    unfold set_camera_config. by rewrite bool_decide_eq_false_2.
  - intros Hout m. rewrite reload_config_lookup. cbv zeta.
    by rewrite bool_decide_eq_false_2.
Qed.

Lemma C7_config_errors_stop_short_witness :
  connected (exec [EvRun OpenOk; EvIter (ReadOk 1%nat)]
                  (start (new_thread 0 rtsp_without_url))) = false ∧
  get_camera_config (mkConfigManager "camera_config.json" [rtsp_without_url]) 48
    = default_camera 48.
Proof.
  destruct (C7_config_errors_stop_short
              (mkConfigManager "camera_config.json" [rtsp_without_url]) 0
              rtsp_without_url [EvRun OpenOk; EvIter (ReadOk 1%nat)])
    as (Hbad & _ & _).
  destruct (C7_config_errors_stop_short
              (mkConfigManager "camera_config.json" [rtsp_without_url]) 48
              rtsp_without_url []) as (_ & Hout & _).
  split.
  - apply Hbad. split; vm_compute; reflexivity.
  - apply Hout. vm_compute. intros [_ Hlt]. discriminate Hlt.
Defined.

(** ** The connection test *)

(** Unfold the probe down to its case analysis. *)
Ltac unfold_probe :=
  unfold test_camera_connection, test_camera_connection_body, try_except,
    getitem, video_capture, cap_read, cap_release, call, raise, probe_target,
    mbind, mret, Probe_bind, Probe_ret;
  simpl.

(** C9, as stated, fails: for a network source without URL the probe
    opens nothing at all. *)
Lemma C9_no_open_for_empty_url :
  ¬ (∀ dev camera_index config,
       ∃ target, CallOpen target ∈ (test_camera_connection dev camera_index config).2).
Proof.
  intros Hclaim.
  destruct (Hclaim (mkDevice (λ _, OpenOk) (ReadOk 1%nat) "") 0 (default_camera 0))
    as [target Hin].
  vm_compute in Hin. by apply elem_of_nil in Hin.
Qed.

(** The probe, case by case. *)
Lemma probe_cases dev camera_index config :
  let r := test_camera_connection dev camera_index config in
  match probe_target config with
  | None => ∃ reason, r = (inr (false, reason), []) ∧ reason ≠ EmptyString
  | Some target =>
      match dev_open dev target with
      | OpenError =>
          ∃ reason, r = (inr (false, reason), [CallOpen target]) ∧
                    reason ≠ EmptyString
      | OpenFailed =>
          ∃ reason, r = (inr (false, reason), [CallOpen target; CallRelease]) ∧
                    reason ≠ EmptyString
      | OpenOk =>
          match dev_read dev with
          | ReadOk _ =>
              r = (inr (true, "Connection successful"),
                   [CallOpen target; CallRead; CallRelease])
          | ReadFail =>
              ∃ reason, r = (inr (false, reason),
                             [CallOpen target; CallRead; CallRelease]) ∧
                        reason ≠ EmptyString
          | ReadError =>
              ∃ reason, r = (inr (false, reason), [CallOpen target; CallRead]) ∧
                        reason ≠ EmptyString
          end
      end
  end.
Proof.
  unfold_probe.
  destruct (config !! "source_type") as [source_type|]; simpl; [|by eauto].
  destruct (decide (source_type = JStr "rtsp")) as [->|Hlocal].
  - rewrite bool_decide_eq_true_2 by done.
    destruct (config !! "url") as [url|]; simpl; [|by eauto].
    destruct (truthy url); simpl; [|by eauto].
    destruct (dev_open dev url); simpl; [|by eauto..].
    destruct (dev_read dev); simpl; by eauto.
  - rewrite bool_decide_eq_false_2 by done.
    destruct (config !! "device") as [device_id|]; simpl; [|by eauto].
    destruct (dev_open dev device_id); simpl; [|by eauto..].
    destruct (dev_read dev); simpl; by eauto.
Qed.

(** C9, amended. [test_camera_connection] always returns a flag and a
    non-empty reason, never an exception. A configuration without the
    keys it reads, or a network source without URL, is answered without
    any OpenCV call. Otherwise the capture is constructed once; if it is
    not open no read is made and it is released; if it is open it is read
    once and, when the read does not raise, released. The flag is true
    exactly when the capture opened and the read returned a frame. *)
Theorem C9_connection_test (dev : Device) (camera_index : Z)
    (config : gmap string JVal) :
  let r := test_camera_connection dev camera_index config in
  (∃ ok reason, r.1 = inr (ok, reason) ∧ reason ≠ EmptyString) ∧
  ((∃ reason, r.1 = inr (true, reason)) ↔
   (∃ target frame, probe_target config = Some target ∧
                    dev_open dev target = OpenOk ∧
                    dev_read dev = ReadOk frame)) ∧
  (probe_target config = None → r.2 = []) ∧
  (∀ target, probe_target config = Some target →
     (dev_open dev target = OpenError → r.2 = [CallOpen target]) ∧
     (dev_open dev target = OpenFailed → r.2 = [CallOpen target; CallRelease]) ∧
     (dev_open dev target = OpenOk → dev_read dev ≠ ReadError →
        r.2 = [CallOpen target; CallRead; CallRelease])).
Proof.
  intros r. subst r.
  pose proof (probe_cases dev camera_index config) as Hcases. cbv zeta in Hcases.
  destruct (probe_target config) as [target|].
  - destruct (dev_open dev target) eqn:Hopen;
      [destruct (dev_read dev) as [frame| |] eqn:Hread|..];
      [|destruct Hcases as (reason & -> & Hreason)..]; [rewrite Hcases|..]; simpl.
    all: split; [by eauto|].
    all: split; [split; [intros [? [=]]; by eauto 10|
                         intros (? & ? & [= <-] & ? & ?);
                         first [congruence | by eauto]]|].
    all: split; [done|].
    all: intros ? [= <-]; rewrite Hopen; repeat split; intros; congruence.
  - destruct Hcases as (reason & -> & Hreason). simpl.
    split; [by eauto|].
    split; [split; [by intros [? [=]]|by intros (? & ? & [=] & _)]|].
    split; [done|]. by intros ? [=].
Qed.

Lemma C9_connection_test_witness :
  (test_camera_connection (mkDevice (λ _, OpenOk) (ReadOk 1%nat) "") 0 rtsp_camera).2
    = [CallOpen (JStr "rtsp://10.0.0.7/stream"); CallRead; CallRelease].
Proof.
  pose (dev := mkDevice (λ _, OpenOk) (ReadOk 1%nat) "").
  destruct (C9_connection_test dev 0 rtsp_camera) as (_ & _ & _ & Hlog).
  destruct (Hlog (JStr "rtsp://10.0.0.7/stream") ltac:(vm_compute; reflexivity))
    as (_ & _ & Hok).
  apply Hok; [reflexivity|discriminate].
Defined.

(** * Further properties of the capture loop *)

(** Induction over the states a thread object can be in. *)
Lemma reachable_induction (P : CameraThread → Prop) :
  (∀ index cfg, P (start (new_thread index cfg))) →
  (∀ e t, reachable t → P t → P (step e t)) →
  ∀ t, reachable t → P t.
Proof.
  intros Hinit Hstep t (index & cfg & es & ->).
  induction es as [|e es IH] using rev_ind; [apply Hinit|].
  rewrite exec_app. simpl. apply Hstep; [|done].
  by exists index, cfg, es.
Qed.

(** The loop passes that deliver the frames [fs]. *)
Lemma exec_reads_ok fs t :
  phase (locals t) = Reading → running t = true →
  Queue.qsize (frame_queue t) ≤ frame_queue_maxsize →
  let t' := exec (EvIter ∘ ReadOk <$> fs) t in
  frame_queue t' = pushes fs (frame_queue t) ∧
  latest_frame t' = from_option Some (latest_frame t) (last fs) ∧
  phase (locals t') = Reading ∧ running t' = true ∧
  connected t' = connected t.
Proof.
  revert t. induction fs as [|f fs IH]; intros t Hph Hrun Hle; [done|].
  cbv zeta. rewrite fmap_cons, exec_cons.
  assert (Hstep : step ((EvIter ∘ ReadOk) f) t =
    set_frame_queue (queue_of (publish f (frame_queue t)))
      (set_latest_frame (Some f)
        (set_locals (mkLocals Reading (cap (locals t)) 0
                              (S (good_reads (locals t)))) t))).
  { unfold step. simpl. rewrite Hph, bool_decide_eq_true_2 by done.
    unfold run_iteration. rewrite Hrun. simpl. by rewrite Hph. }
  rewrite Hstep.
  destruct (IH (set_frame_queue (queue_of (publish f (frame_queue t)))
      (set_latest_frame (Some f)
        (set_locals (mkLocals Reading (cap (locals t)) 0
                              (S (good_reads (locals t)))) t))))
    as (Hq & Hl & Hp & Hr & Hc); simpl; [done|done|by apply publish_qsize|].
  rewrite Hq, Hl, Hp, Hr, Hc. simpl. repeat split; try done.
  rewrite last_cons. by destruct (last fs).
Qed.

(** X1 material: with nobody taking frames out, the queue is the last two
    frames published, oldest first. *)
Lemma pushes_last_two (fs : list Frame) :
  pushes fs [] = drop (length fs - 2) fs.
Proof.
  induction fs as [|f fs IH] using rev_ind; [done|].
  rewrite pushes_snoc, IH, length_app. simpl.
  destruct (decide (length fs < 2)%nat) as [Hshort|Hlong].
  - destruct fs as [|a [|b fs]]; simpl in Hshort; [| |lia];
      vm_compute; reflexivity.
  - rewrite publish_full.
    + simpl. assert (Hn : (length fs + 1 - 2 = S (length fs - 2))%nat) by lia.
      rewrite Hn, drop_app_le by lia. f_equal.
      generalize (length fs - 2)%nat. clear. intros n. revert n.
      induction fs as [|g fs IH]; intros [|n]; simpl; done.
    + unfold Queue.qsize, frame_queue_maxsize. rewrite length_drop. lia.
Qed.

(** X1. A source is opened and delivers the frames [fs], and no frame is
    taken out meanwhile. Then the queue holds the last two frames of [fs]
    (all of [fs] if there are fewer), oldest first, [latest_frame] is the
    last frame of [fs], and with two or more frames delivered [get_frame]
    answers the one before the last. *)
Theorem X1_queue_is_last_two (index : Z) (cfg : gmap string JVal) (fs : list Frame) :
  may_open cfg →
  let t := exec (EvRun OpenOk :: (EvIter ∘ ReadOk <$> fs)) (start (new_thread index cfg)) in
  frame_queue t = drop (length fs - 2) fs ∧
  latest_frame t = last fs ∧
  ((2 ≤ length fs)%nat → (get_frame t).1 = fs !! (length fs - 2)%nat).
Proof.
  intros [Hen Hurl] t. subst t. rewrite exec_cons.
  assert (Hbegin : step (EvRun OpenOk) (start (new_thread index cfg)) =
    set_locals (mkLocals Reading Opened 0 0)
      (set_connected true (set_running true (start (new_thread index cfg))))).
  { unfold step. simpl. unfold run_begin. simpl. rewrite Hen. simpl.
    destruct (get_is_str cfg "source_type" "rtsp"); simpl; [|done].
    by rewrite Hurl. }
  rewrite Hbegin.
  destruct (exec_reads_ok fs (set_locals (mkLocals Reading Opened 0 0)
      (set_connected true (set_running true (start (new_thread index cfg))))))
    as (Hq & Hl & _); simpl; [done|done|unfold Queue.qsize, frame_queue_maxsize; simpl; lia|].
  rewrite Hq, Hl, pushes_last_two. simpl.
  split; [done|]. split; [by destruct (last fs)|].
  intros Hlen. unfold get_frame. rewrite Hq, pushes_last_two.
  destruct (drop (length fs - 2) fs) as [|f rest] eqn:Hdrop.
  - apply (f_equal length) in Hdrop. rewrite length_drop in Hdrop. simpl in Hdrop. lia.
  - simpl. rewrite <- (Nat.add_0_r (length fs - 2)), <- lookup_drop. by rewrite Hdrop.
Qed.

Lemma X1_queue_is_last_two_witness :
  (get_frame (exec (EvRun OpenOk :: (EvIter ∘ ReadOk <$> [5; 6; 7; 8]%nat))
                   (start (new_thread 3 local_camera)))).1 = Some 7%nat.
Proof.
  assert (Hcfg : may_open local_camera).
  { split; [vm_compute; reflexivity|]. vm_compute. discriminate. }
  destruct (X1_queue_is_last_two 3 local_camera [5; 6; 7; 8]%nat Hcfg) as (_ & _ & Hget).
  exact (Hget ltac:(simpl; lia)).
Defined.

(** Once [run] has returned, the thread's own steps do nothing and the
    two methods touch only the queue and the [running] flag. *)
Lemma finished_step e t :
  phase (locals t) = Finished →
  let t' := step e t in
  locals t' = locals t ∧ connected t' = connected t ∧
  latest_frame t' = latest_frame t ∧ config t' = config t.
Proof.
  intros Hph. destruct t as [ix cfg run con q lf tmo st [ph cp rf gr]].
  simpl in Hph. subst ph.
  destruct e as [o|r| |]; crush_step; try done.
  - by rewrite andb_false_r.
  - by destruct q.
Qed.

Lemma finished_exec es t :
  phase (locals t) = Finished →
  let t' := exec es t in
  locals t' = locals t ∧ connected t' = connected t ∧
  latest_frame t' = latest_frame t ∧ config t' = config t.
Proof.
  revert t. induction es as [|e es IH]; intros t Hph; [done|].
  cbv zeta. rewrite exec_cons.
  destruct (finished_step e t Hph) as (Hl & Hc & Hf & Hcfg).
  destruct (IH (step e t)) as (Hl' & Hc' & Hf' & Hcfg'); [by rewrite Hl|].
  by rewrite Hl', Hc', Hf', Hcfg'.
Qed.

(** X2. Reads that raise are not counted and do not reset the count.
    In a loop that is reading, not told to stop, with its counter at 5 or
    less (as it always is while the loop is connected), take any run of
    passes in which no frame arrives (failed reads and raising reads in
    any order) and let [k] be the number of failed reads in it. While the
    counter plus [k] is at most 5 the passes change nothing but the
    counter, which grows by [k]; when it exceeds 5 the loop is over:
    disconnected, capture released. *)
Theorem X2_errors_neither_count_nor_reset (rs : list ReadResult) (t : CameraThread) :
  no_frame rs →
  phase (locals t) = Reading → running t = true →
  read_failures (locals t) ≤ 5 →
  let k := count_failures rs in
  let t' := exec (EvIter <$> rs) t in
  (read_failures (locals t) + k ≤ 5 →
     t' = set_failures (read_failures (locals t) + k) t) ∧
  (read_failures (locals t) + k > 5 →
     connected t' = false ∧ cap (locals t') = Released ∧
     phase (locals t') = Finished).
Proof.
  intros Hrs. revert t.
  induction Hrs as [|r rs [->| ->] _ IH]; intros t Hph Hrun Hrf.
  - simpl. split; [|lia]. intros _.
    destruct t as [ix cfg run con q lf tmo st [ph cp rf gr]].
    unfold set_failures, set_locals. simpl. do 2 f_equal. lia.
  - (* a failed read *)
    cbv zeta. rewrite fmap_cons, exec_cons, read_fail_step by done. cbv zeta.
    change (count_failures (ReadFail :: rs)) with (1 + count_failures rs).
    assert (Hk : 0 ≤ count_failures rs).
    { clear. induction rs as [|[]]; simpl; lia. }
    case_bool_decide as Hover.
    + split; [lia|]. intros _.
      destruct (finished_exec (EvIter <$> rs)
                  (clean_up (set_connected false
                     (set_failures (read_failures (locals t) + 1) t))))
        as (Hl & Hc & _); [done|].
      rewrite Hl, Hc. done.
    + destruct (IH (set_failures (read_failures (locals t) + 1) t))
        as [Hle Hgt];
        [by destruct t as [? ? ? ? ? ? ? ? []]|done|
         destruct t as [? ? ? ? ? ? ? ? []]; simpl in *; lia|].
      destruct t as [ix cfg run con q lf tmo st [ph cp rf gr]]; simpl in *.
      split.
      * intros ?. rewrite Hle by lia. unfold set_failures, set_locals. simpl.
        do 2 f_equal. lia.
      * intros ?. apply Hgt. lia.
  - (* a read that raises *)
    cbv zeta. rewrite fmap_cons, exec_cons.
    assert (Hsame : step (EvIter ReadError) t = t).
    { unfold step. rewrite Hph, bool_decide_eq_true_2 by done.
      unfold run_iteration. by rewrite Hrun. }
    rewrite Hsame. by apply IH.
Qed.

Lemma X2_errors_neither_count_nor_reset_witness :
  connected (exec (EvIter <$> [ReadFail; ReadError; ReadFail; ReadFail; ReadError;
                               ReadFail; ReadFail; ReadError; ReadFail])
                  just_connected) = false.
Proof.
  assert (Hrs : no_frame [ReadFail; ReadError; ReadFail; ReadFail; ReadError;
                          ReadFail; ReadFail; ReadError; ReadFail]).
  { repeat first [apply Forall_nil_2
                 | apply Forall_cons_2; [first [by left | by right]|]]. }
  assert (Hph : phase (locals just_connected) = Reading) by (vm_compute; reflexivity).
  assert (Hrun : running just_connected = true) by (vm_compute; reflexivity).
  assert (Hrf : read_failures (locals just_connected) ≤ 5)
    by (vm_compute; discriminate).
  destruct (X2_errors_neither_count_nor_reset _ just_connected Hrs Hph Hrun Hrf)
    as [_ Hgt].
  exact (proj1 (Hgt ltac:(vm_compute; reflexivity))).
Defined.

Lemma finished_not_connected t :
  reachable t → phase (locals t) = Finished → connected t = false.
Proof.
  intros Hr Hph. destruct (connected t) eqn:Hc; [|done].
  destruct (ok_connected t (reachable_ok t Hr) Hc) as (Hrd & _). congruence.
Qed.

(** X3. A loop that has ended never comes back: in every state a thread
    can be in, once [run] has returned the thread is not connected, and
    whatever happens afterwards it stays not connected, [run] stays
    returned, and the capture and the last frame stay as they were. *)
Theorem X3_finished_is_final (t : CameraThread) (es : list Event) :
  reachable t → phase (locals t) = Finished →
  connected t = false ∧
  let t' := exec es t in
  connected t' = false ∧ phase (locals t') = Finished ∧
  cap (locals t') = cap (locals t) ∧ latest_frame t' = latest_frame t.
Proof.
  intros Hr Hph.
  pose proof (finished_not_connected t Hr Hph) as Hcon.
  split; [done|]. cbv zeta.
  destruct (finished_exec es t Hph) as (Hl & Hc & Hf & _).
  by rewrite Hl, Hc, Hf.
Qed.

Lemma X3_finished_is_final_witness :
  connected (exec [EvRun OpenOk; EvIter (ReadOk 2%nat); EvGet]
                  (exec (failures 6) just_connected)) = false.
Proof.
  assert (Hr : reachable (exec (failures 6) just_connected)).
  { apply reachable_exec. exists 0, local_camera, [EvRun OpenOk]. reflexivity. }
  assert (Hph : phase (locals (exec (failures 6) just_connected)) = Finished)
    by (vm_compute; reflexivity).
  destruct (X3_finished_is_final _ [EvRun OpenOk; EvIter (ReadOk 2%nat); EvGet] Hr Hph)
    as (_ & Hc & _).
  exact Hc.
Defined.

(** X4. When the source cannot be opened, [run] returns at once and the
    capture object it constructed is never released: whatever happens to
    the thread afterwards, the capture stays unopened and unreleased and
    the thread stays not connected. *)
Theorem X4_failed_open_never_released (index : Z) (cfg : gmap string JVal)
    (es : list Event) :
  may_open cfg →
  let t := exec (EvRun OpenFailed :: es) (start (new_thread index cfg)) in
  cap (locals t) = Unopened ∧ phase (locals t) = Finished ∧
  connected t = false ∧ latest_frame t = None.
Proof.
  intros [Hen Hurl] t. subst t. rewrite exec_cons.
  assert (Hbegin : step (EvRun OpenFailed) (start (new_thread index cfg)) =
    leave Unopened (set_running true (start (new_thread index cfg)))).
  { unfold step. simpl. unfold run_begin. simpl. rewrite Hen. simpl.
    destruct (get_is_str cfg "source_type" "rtsp"); simpl; [|done].
    by rewrite Hurl. }
  rewrite Hbegin.
  destruct (finished_exec es (leave Unopened (set_running true (start (new_thread index cfg)))))
    as (Hl & Hc & Hf & _); [done|].
  by rewrite Hl, Hc, Hf.
Qed.

Lemma X4_failed_open_never_released_witness :
  cap (locals (exec [EvRun OpenFailed; EvIter (ReadOk 1%nat); EvStop; EvIter ReadFail]
                    (start (new_thread 0 rtsp_camera)))) = Unopened.
Proof.
  assert (Hcfg : may_open rtsp_camera).
  { split; [vm_compute; reflexivity|]. intros _. vm_compute. reflexivity. }
  exact (proj1 (X4_failed_open_never_released 0 rtsp_camera
                  [EvIter (ReadOk 1%nat); EvStop; EvIter ReadFail] Hcfg)).
Defined.

(** X5. A [stop()] that comes before the thread has entered [run] is
    lost, because [run] begins by setting [running] to true: the thread
    behaves exactly as if [stop] had not been called, and on a source
    that opens it ends up connected and running. *)
Theorem X5_stop_before_run_is_lost (index : Z) (cfg : gmap string JVal)
    (o : OpenResult) (es : list Event) :
  let t0 := start (new_thread index cfg) in
  exec (EvStop :: EvRun o :: es) t0 = exec (EvRun o :: es) t0 ∧
  (may_open cfg →
     running (exec [EvStop; EvRun OpenOk] t0) = true ∧
     connected (exec [EvStop; EvRun OpenOk] t0) = true).
Proof.
  intros t0. subst t0. split; [done|].
  intros [Hen Hurl]. simpl. unfold run_begin. simpl. rewrite Hen. simpl.
  destruct (get_is_str cfg "source_type" "rtsp"); simpl; [|done].
  by rewrite Hurl.
Qed.

Lemma X5_stop_before_run_is_lost_witness :
  running (exec [EvStop; EvRun OpenOk] (start (new_thread 0 local_camera))) = true.
Proof.
  assert (Hcfg : may_open local_camera).
  { split; [vm_compute; reflexivity|]. vm_compute. discriminate. }
  exact (proj1 (proj2 (X5_stop_before_run_is_lost 0 local_camera OpenOk []) Hcfg)).
Defined.

Lemma step_config e t : config (step e t) = config t.
Proof.
  destruct t as [ix cfg run con q lf tmo st [ph cp rf gr]].
  destruct e as [o|r| |]; crush_step; repeat (case_match; simpl); done.
Qed.

(** X6. A thread is connected only on a configuration that is enabled
    and, for a network source, has a URL: in every state a thread can be
    in, [connected] true implies both. *)
Theorem X6_connected_needs_usable_config (t : CameraThread) :
  reachable t → connected t = true → may_open (config t).
Proof.
  intros Hr. induction Hr as [index cfg|e t Hr IH] using reachable_induction;
    [done|].
  rewrite step_config. intros Hcon.
  destruct (connected t) eqn:Hbefore; [by apply IH|]. clear IH.
  destruct t as [ix cfg run con q lf tmo st [ph cp rf gr]]. simpl in *. subst con.
  destruct e as [o|r| |]; crush_step.
  - destruct (st && bool_decide (ph = Created)); simpl in Hcon; [|done].
    destruct (truthy (dict_get cfg "enabled" (JBool false))) eqn:Hen;
      simpl in Hcon; [|done].
    split; [done|]. intros Hrtsp. rewrite Hrtsp in Hcon. simpl in Hcon.
    by destruct (truthy (dict_get cfg "url" (JStr ""))).
  - repeat (case_match; simpl in Hcon); done.
  - by destruct q.
  - done.
Qed.

Lemma X6_connected_needs_usable_config_witness :
  may_open (config just_connected).
Proof.
  assert (Hr : reachable just_connected).
  { exists 0, local_camera, [EvRun OpenOk]. reflexivity. }
  assert (Hc : connected just_connected = true) by (vm_compute; reflexivity).
  exact (X6_connected_needs_usable_config just_connected Hr Hc).
Defined.

(** [get_frame] calls in a row, with the thread doing nothing between. *)
Lemma get_frame_step t :
  step EvGet t = set_frame_queue (tail (frame_queue t)) t.
Proof.
  destruct t as [ix cfg run con q lf tmo st l]. unfold step, get_frame. simpl.
  by destruct q.
Qed.

(** X7. Calls of [get_frame] with no read in between hand out the queued
    frames in the order they were read, one per call, and after them the
    last frame, again and again: call number [n] (from 0) answers the
    [n]-th queued frame if there is one and [latest_frame] otherwise. The
    calls change nothing but the queue. *)
Theorem X7_get_frame_sequence (t : CameraThread) (n : nat) :
  let t' := exec (replicate n EvGet) t in
  (get_frame t').1 = from_option Some (latest_frame t) (frame_queue t !! n) ∧
  t' = set_frame_queue (drop n (frame_queue t)) t.
Proof.
  cbv zeta.
  assert (Hexec : exec (replicate n EvGet) t = set_frame_queue (drop n (frame_queue t)) t).
  { revert t. induction n as [|n IH]; intros t.
    - by destruct t.
    - simpl replicate. rewrite exec_cons, get_frame_step, IH. simpl.
      unfold set_frame_queue. simpl. f_equal.
      destruct (frame_queue t); simpl; [apply drop_nil|done]. }
  split; [|done]. rewrite Hexec. unfold get_frame. simpl.
  rewrite <- (Nat.add_0_r n) at 2. rewrite <- lookup_drop.
  by destruct (drop n (frame_queue t)).
Qed.



(** * Further properties of the supervisor *)

Lemma reload_config_config m :
  config_manager (Manager.reload_config m) = config_manager m.
Proof.
  unfold Manager.reload_config. rewrite start_each_config. simpl.
  unfold Manager.stop_all_cameras.
  fold (stop_each (map_to_list (camera_threads m)).*1 m).
  apply stop_each_config.
Qed.

(** X10. [reload_config] twice in a row leaves the same dictionary as
    once, over the same configuration store; only the list of threads
    stopped grows. *)
Theorem X10_reload_twice (m : CameraManager) :
  let m1 := Manager.reload_config m in
  let m2 := Manager.reload_config m1 in
  camera_threads m2 = camera_threads m1 ∧
  config_manager m2 = config_manager m ∧
  ∀ i t, camera_threads m1 !! i = Some t → stop t ∈ retired m2.
Proof.
  cbv zeta. split; [|split].
  - apply map_eq. intros i.
    by rewrite !reload_config_lookup, reload_config_config.
  - by rewrite !reload_config_config.
  - intros i t Hi.
    by apply reload_config_retired, (stop_all_cameras_retires _ i).
Qed.

(** [stop_camera] on an index without thread changes nothing, so
    stopping the same index twice is the same as once; on an index with a
    thread it removes that entry and no other. *)
Lemma stop_camera_only_that_index (m : CameraManager) (index : Z) :
  (camera_threads m !! index = None → Manager.stop_camera index m = m) ∧
  Manager.stop_camera index (Manager.stop_camera index m)
    = Manager.stop_camera index m ∧
  camera_threads (Manager.stop_camera index m) !! index = None ∧
  (∀ j, j ≠ index →
     camera_threads (Manager.stop_camera index m) !! j = camera_threads m !! j).
Proof.
  assert (Hgone : camera_threads (Manager.stop_camera index m) !! index = None).
  { rewrite stop_camera_lookup. by case_decide. }
  split; [|split; [|split]].
  - intros Hnone. unfold Manager.stop_camera. by rewrite Hnone.
  - unfold Manager.stop_camera at 1. by rewrite Hgone.
  - done.
  - intros j Hne. rewrite stop_camera_lookup. by case_decide.
Qed.

(** X12. After [stop_all_cameras] the dictionary is empty, so no camera
    counts as connected; every thread it held has had [stop] called on
    it; the configuration store is untouched. *)
Theorem X12_stop_all_cameras (m : CameraManager) :
  let m' := Manager.stop_all_cameras m in
  camera_threads m' = ∅ ∧
  config_manager m' = config_manager m ∧
  (∀ i, Manager.is_camera_connected i m' = false) ∧
  (∀ i t, camera_threads m !! i = Some t →
     stop t ∈ retired m' ∧ running (stop t) = false).
Proof.
  cbv zeta. split; [apply stop_all_cameras_empty|]. split; [|split].
  - unfold Manager.stop_all_cameras.
    fold (stop_each (map_to_list (camera_threads m)).*1 m).
    apply stop_each_config.
  - intros i. unfold Manager.is_camera_connected.
    by rewrite stop_all_cameras_empty, lookup_empty.
  - intros i t Hi. split; [|done]. by apply (stop_all_cameras_retires m i).
Qed.

(** X13. After [reload_config] the dictionary has keys in [range(48)]
    only, hence at most 48 threads, however many cameras the
    configuration file lists. *)
Theorem X13_at_most_48_threads (m : CameraManager) :
  let m' := Manager.reload_config m in
  (∀ i, is_Some (camera_threads m' !! i) → 0 ≤ i < 48) ∧
  (size (camera_threads m') ≤ 48)%nat.
Proof.
  cbv zeta.
  assert (Hkeys : ∀ i, is_Some (camera_threads (Manager.reload_config m) !! i) →
                       0 ≤ i < 48).
  { intros i. rewrite reload_config_lookup. cbv zeta.
    case_bool_decide; simpl; [done|]. by intros [? [=]]. }
  split; [done|].
  rewrite <- size_dom.
  transitivity (size (list_to_set (C := gset Z) (seqZ 0 48))).
  - apply subseteq_size. intros i Hi. apply elem_of_dom in Hi.
    apply elem_of_list_to_set, elem_of_seqZ. specialize (Hkeys i Hi). lia.
  - rewrite size_list_to_set by apply NoDup_seqZ. by rewrite length_seqZ.
Qed.

(** * Further properties of the configuration store *)

Lemma get_default_config_lookup (i : Z) :
  0 ≤ i < 48 → get_default_config !! Z.to_nat i = Some (default_camera i).
Proof.
  intros Hi. unfold get_default_config.
  rewrite list_lookup_fmap, lookup_seqZ_lt by lia. simpl. f_equal. f_equal. lia.
Qed.

(** X14. The default configuration has 48 cameras, all disabled,
    numbered from "Camera 1"; over it [get_camera_config] answers the
    default entry for every index, in range or not, and a manager built
    on it starts no thread at all. *)
Theorem X14_default_config (config_file : string) (index : Z) :
  let cm := mkConfigManager config_file get_default_config in
  length get_default_config = 48%nat ∧
  get_camera_config cm index = default_camera index ∧
  default_camera index !! "name" = Some (JStr ("Camera " +:+ pretty (index + 1))) ∧
  truthy (dict_get (get_camera_config cm index) "enabled" (JBool false)) = false ∧
  camera_threads (Manager.init cm) = ∅.
Proof.
  cbv zeta.
  assert (Hlen : length get_default_config = 48%nat).
  { unfold get_default_config. by rewrite length_fmap, length_seqZ. }
  assert (Hget : ∀ i, get_camera_config (mkConfigManager config_file get_default_config) i
                      = default_camera i).
  { intros i. unfold get_camera_config. cbn [cameras]. rewrite Hlen.
    case_bool_decide; [|done]. by rewrite get_default_config_lookup by lia. }
  split; [done|]. split; [done|]. split; [|split].
  - unfold default_camera. do 4 (rewrite lookup_insert_ne by done).
    apply lookup_insert_eq.
  - rewrite Hget. apply default_camera_disabled.
  - apply map_eq. intros i. unfold Manager.init.
    rewrite reload_config_lookup, lookup_empty. cbv zeta. simpl.
    by rewrite Hget, default_camera_disabled, andb_false_r.
Qed.

(** X15. [set_camera_config] on an index of the stored list returns true
    and replaces exactly that entry: [get_camera_config] then answers the
    new configuration for that index and the old ones for every other
    index, and the list keeps its length. *)
Theorem X15_set_then_get (cm : ConfigManager) (index : Z) (cfg : gmap string JVal) :
  0 ≤ index < Z.of_nat (length (cameras cm)) →
  let r := set_camera_config cm index cfg in
  r.1 = true ∧
  get_camera_config r.2 index = cfg ∧
  (∀ j, j ≠ index → get_camera_config r.2 j = get_camera_config cm j) ∧
  length (cameras r.2) = length (cameras cm) ∧
  config_file r.2 = config_file cm.
Proof.
  intros Hin. cbv zeta. unfold set_camera_config.
  rewrite bool_decide_eq_true_2 by done. simpl.
  split; [done|]. split; [|split; [|split; [|done]]].
  - unfold get_camera_config. simpl. rewrite length_insert.
    rewrite bool_decide_eq_true_2 by done.
    rewrite list_lookup_insert_eq by lia. done.
  - intros j Hne. unfold get_camera_config. simpl. rewrite length_insert.
    case_bool_decide; [|done].
    rewrite list_lookup_insert_ne by lia. done.
  - simpl. by rewrite length_insert.
Qed.

Lemma X15_set_then_get_witness :
  get_camera_config
    (set_camera_config (mkConfigManager "camera_config.json" get_default_config)
                       47 local_camera).2 47 = local_camera.
Proof.
  assert (Hin : 0 ≤ 47 < Z.of_nat (length (cameras
            (mkConfigManager "camera_config.json" get_default_config)))).
  { vm_compute. split; [discriminate|reflexivity]. }
  exact (proj1 (proj2 (X15_set_then_get _ 47 local_camera Hin))).
Defined.

(** * The configuration file *)

(** X16. The first start, with no configuration file and a directory
    that can be written: building the [ConfigManager] fails with
    [AttributeError] ([save_config] reads [self.config] before [__init__]
    has assigned it) and leaves an empty file behind; building it again
    on that disk succeeds, with the 48 disabled default cameras, and
    leaves the file empty. *)
Theorem X16_first_start (config_file : string) (d : Store.Disk) :
  Store.file d = None → Store.writable d = true →
  let d1 := Store.mkDisk (Some Store.EmptyFile) (Store.readable d) true in
  Store.init config_file d = (inl (Store.AttributeError "config"), d1) ∧
  Store.init config_file d1
    = (inr (mkConfigManager config_file get_default_config), d1).
Proof.
  intros Hfile Hw. cbv zeta. split.
  - unfold Store.init, Store.load_config, Store.save_config.
    by rewrite Hfile, Hw.
  - unfold Store.init, Store.load_config. simpl. by destruct (Store.readable d).
Qed.

Lemma X16_first_start_witness :
  (Store.init "camera_config.json" (Store.mkDisk None true true)).1
    = inl (Store.AttributeError "config").
Proof.
  destruct (X16_first_start "camera_config.json" (Store.mkDisk None true true)
              eq_refl eq_refl) as [Hfirst _].
  by rewrite Hfirst.
Defined.

(** X17. Building the [ConfigManager] never changes a file that
    exists. A readable document gives its camera list. An unreadable
    file, an empty file, a text file that is not JSON, or a missing file
    that cannot be created all give the default configuration. A readable
    file whose bytes are not text makes [__init__] fail with
    [UnicodeDecodeError], which neither [except] clause catches. *)
Theorem X17_load_falls_back_to_default (config_file : string) (d : Store.Disk) :
  (is_Some (Store.file d) ∨ Store.writable d = false) →
  (Store.init config_file d).2 = d ∧
  (Store.init config_file d).1 =
    match Store.file d with
    | Some (Store.Document cams) =>
        inr (mkConfigManager config_file
               (if Store.readable d then cams else get_default_config))
    | Some Store.Undecodable =>
        if Store.readable d then inl Store.UnicodeDecodeError
        else inr (mkConfigManager config_file get_default_config)
    | _ => inr (mkConfigManager config_file get_default_config)
    end.
Proof.
  intros Hcase.
  unfold Store.init, Store.load_config, Store.save_config.
  destruct (Store.file d) as [[| | |cams]|] eqn:Hfile; simpl.
  - by destruct (Store.readable d).
  - by destruct (Store.readable d).
  - by destruct (Store.readable d).
  - by destruct (Store.readable d).
  - destruct Hcase as [[? [=]]|Hw]. by rewrite Hw.
Qed.

Lemma X17_load_falls_back_to_default_witness :
  (Store.init "camera_config.json" (Store.mkDisk (Some Store.Garbage) true true)).1
    = inr (mkConfigManager "camera_config.json" get_default_config) ∧
  (Store.init "camera_config.json" (Store.mkDisk (Some Store.Undecodable) true true)).1
    = inl Store.UnicodeDecodeError.
Proof.
  split.
  - exact (proj2 (X17_load_falls_back_to_default "camera_config.json"
             (Store.mkDisk (Some Store.Garbage) true true)
             (or_introl (ex_intro _ Store.Garbage eq_refl)))).
  - exact (proj2 (X17_load_falls_back_to_default "camera_config.json"
             (Store.mkDisk (Some Store.Undecodable) true true)
             (or_introl (ex_intro _ Store.Undecodable eq_refl)))).
Defined.

(** X18. What [set_camera_config] saves survives a restart: for an
    index of the stored list, on a disk where the file can be written and
    read, the call returns true and a [ConfigManager] built afterwards
    from the file is the one in memory, so it answers the new
    configuration for that index. *)
Theorem X18_saved_config_survives_restart (cm : ConfigManager) (index : Z)
    (cfg : gmap string JVal) (d : Store.Disk) :
  0 ≤ index < Z.of_nat (length (cameras cm)) →
  Store.writable d = true → Store.readable d = true →
  let r := Store.set_camera_config cm index cfg d in
  r.1.1 = true ∧
  Store.init (config_file cm) r.2 = (inr r.1.2, r.2) ∧
  get_camera_config r.1.2 index = cfg.
Proof.
  intros Hin Hw Hr. cbv zeta. unfold Store.set_camera_config.
  rewrite bool_decide_eq_true_2 by done. simpl.
  unfold Store.save_config. rewrite Hw. simpl.
  split; [done|]. split.
  - unfold Store.init, Store.load_config. simpl. by rewrite Hr.
  - unfold get_camera_config. simpl. rewrite length_insert.
    rewrite bool_decide_eq_true_2 by done.
    by rewrite list_lookup_insert_eq by lia.
Qed.

Lemma X18_saved_config_survives_restart_witness :
  let cm := mkConfigManager "camera_config.json" get_default_config in
  let r := Store.set_camera_config cm 0 local_camera
             (Store.mkDisk (Some Store.EmptyFile) true true) in
  get_camera_config r.1.2 0 = local_camera.
Proof.
  intros cm r.
  assert (Hin : 0 ≤ 0 < Z.of_nat (length (cameras cm))).
  { vm_compute. split; [discriminate|reflexivity]. }
  exact (proj2 (proj2 (X18_saved_config_survives_restart cm 0 local_camera
                         (Store.mkDisk (Some Store.EmptyFile) true true)
                         Hin eq_refl eq_refl))).
Defined.

(** X19. [set_camera_config] does not look at the result of
    [save_config]: when the file cannot be written the call still returns
    true and changes the configuration in memory, while the disk stays as
    it was. *)
Theorem X19_unsaved_change_reported_as_success (cm : ConfigManager) (index : Z)
    (cfg : gmap string JVal) (d : Store.Disk) :
  0 ≤ index < Z.of_nat (length (cameras cm)) →
  Store.writable d = false →
  let r := Store.set_camera_config cm index cfg d in
  r.1.1 = true ∧ r.2 = d ∧ get_camera_config r.1.2 index = cfg.
Proof.
  intros Hin Hw. cbv zeta. unfold Store.set_camera_config.
  rewrite bool_decide_eq_true_2 by done. simpl.
  unfold Store.save_config. rewrite Hw. simpl.
  split; [done|]. split; [done|].
  unfold get_camera_config. simpl. rewrite length_insert.
  rewrite bool_decide_eq_true_2 by done.
  by rewrite list_lookup_insert_eq by lia.
Qed.

Lemma X19_unsaved_change_reported_as_success_witness :
  let cm := mkConfigManager "camera_config.json" get_default_config in
  let d := Store.mkDisk (Some (Store.Document get_default_config)) true false in
  (Store.set_camera_config cm 5 rtsp_camera d).2 = d.
Proof.
  intros cm d.
  assert (Hin : 0 ≤ 5 < Z.of_nat (length (cameras cm))).
  { vm_compute. split; [discriminate|reflexivity]. }
  exact (proj1 (proj2 (X19_unsaved_change_reported_as_success cm 5 rtsp_camera d
                         Hin eq_refl))).
Defined.

(** * Further properties of the connection test *)

(** X20. When the capture opens and the read raises, the connection
    test returns failure with the text of the exception, and the capture
    has been opened and read but not released. *)
Theorem X20_probe_read_raises (dev : Device) (camera_index : Z)
    (config : gmap string JVal) (target : JVal) :
  probe_target config = Some target →
  dev_open dev target = OpenOk → dev_read dev = ReadError →
  test_camera_connection dev camera_index config
    = (inr (false, "Error testing connection: " +:+ dev_what dev),
       [CallOpen target; CallRead]).
Proof.
  unfold_probe.
  destruct (config !! "source_type") as [source_type|]; simpl; [|done].
  destruct (decide (source_type = JStr "rtsp")) as [->|Hlocal].
  - rewrite bool_decide_eq_true_2 by done.
    destruct (config !! "url") as [url|]; simpl; [|done].
    destruct (truthy url); simpl; [|done].
    intros [= ->] -> ->. done.
  - rewrite bool_decide_eq_false_2 by done.
    destruct (config !! "device") as [device_id|]; simpl; [|done].
    intros [= ->] -> ->. done.
Qed.

Lemma X20_probe_read_raises_witness :
  (test_camera_connection (mkDevice (λ _, OpenOk) ReadError "stream timed out")
                          0 rtsp_camera).2
    = [CallOpen (JStr "rtsp://10.0.0.7/stream"); CallRead].
Proof.
  rewrite (X20_probe_read_raises
             (mkDevice (λ _, OpenOk) ReadError "stream timed out") 0 rtsp_camera
             (JStr "rtsp://10.0.0.7/stream")
             ltac:(vm_compute; reflexivity) eq_refl eq_refl).
  reflexivity.
Defined.

(** X21. A configuration that lacks a key the connection test reads is
    answered with failure and the name of the key, without any OpenCV
    call: ["source_type"] always, ["url"] for a network source,
    ["device"] otherwise. *)
Theorem X21_probe_missing_key (dev : Device) (camera_index : Z)
    (config : gmap string JVal) :
  let r := test_camera_connection dev camera_index config in
  (config !! "source_type" = None →
     r = (inr (false, "Error testing connection: 'source_type'"), [])) ∧
  (config !! "source_type" = Some (JStr "rtsp") → config !! "url" = None →
     r = (inr (false, "Error testing connection: 'url'"), [])) ∧
  (∀ source_type, config !! "source_type" = Some source_type →
     source_type ≠ JStr "rtsp" → config !! "device" = None →
     r = (inr (false, "Error testing connection: 'device'"), [])).
Proof.
  cbv zeta. unfold_probe. split; [|split].
  - by intros ->.
  - by intros -> ->.
  - intros source_type -> Hne ->. by rewrite bool_decide_eq_false_2.
Qed.

(** X22. The connection test looks at ["source_type"], ["url"] and
    ["device"] only: the camera index, the ["enabled"] flag and the
    ["name"] make no difference, so a disabled camera is tested like an
    enabled one. *)
Theorem X22_probe_ignores_enabled (dev : Device) (i j : Z)
    (config : gmap string JVal) (enabled name : JVal) :
  test_camera_connection dev i (<["enabled" := enabled]> (<["name" := name]> config))
    = test_camera_connection dev j config.
Proof.
  unfold_probe. by rewrite !lookup_insert_ne.
Qed.

(** X23. The reasons of the connection test. On a network source with a
    URL: "Connection successful" when the capture opens and the read
    returns a frame, "Failed to connect to RTSP stream" when the capture
    does not open or the read returns none. On a network source whose URL
    is empty: "RTSP URL is empty". On any other source type the failure
    text names the device. *)
Theorem X23_probe_reasons (dev : Device) (camera_index : Z)
    (config : gmap string JVal) :
  let r := (test_camera_connection dev camera_index config).1 in
  (∀ url, config !! "source_type" = Some (JStr "rtsp") →
     config !! "url" = Some url →
     (truthy url = false → r = inr (false, "RTSP URL is empty")) ∧
     (truthy url = true →
        (dev_open dev url = OpenFailed ∨
         dev_open dev url = OpenOk ∧ dev_read dev = ReadFail) →
        r = inr (false, "Failed to connect to RTSP stream")) ∧
     (truthy url = true → ∀ frame,
        dev_open dev url = OpenOk → dev_read dev = ReadOk frame →
        r = inr (true, "Connection successful"))) ∧
  (∀ source_type device_id, config !! "source_type" = Some source_type →
     source_type ≠ JStr "rtsp" → config !! "device" = Some device_id →
     ((dev_open dev device_id = OpenFailed ∨
       dev_open dev device_id = OpenOk ∧ dev_read dev = ReadFail) →
      r = inr (false, "Failed to connect to local camera device "
                        +:+ py_str device_id)) ∧
     (∀ frame, dev_open dev device_id = OpenOk → dev_read dev = ReadOk frame →
        r = inr (true, "Connection successful"))).
Proof.
  cbv zeta. unfold_probe. split.
  - intros url -> ->. simpl. split; [|split].
    + by intros ->.
    + intros -> [-> | [-> ->]]; done.
    + intros -> frame -> ->. done.
  - intros source_type device_id -> Hne ->.
    rewrite bool_decide_eq_false_2 by done. simpl. split.
    + intros [-> | [-> ->]]; done.
    + intros frame -> ->. done.
Qed.

(** * What the views show *)

(** X24. A visible view shows a picture exactly when the dictionary has
    a thread for its index, that thread is connected, and the thread's
    [get_frame] has a frame to give; the picture is that frame. *)
Theorem X24_view_shows_picture (m : CameraManager) (index : Z) (frame : Frame) :
  (View.update_frame true index m).1 = View.Picture frame ↔
  ∃ t, camera_threads m !! index = Some t ∧ connected t = true ∧
       (get_frame t).1 = Some frame.
Proof.
  unfold View.update_frame, View.show_placeholder,
    Manager.is_camera_connected, Manager.get_frame. cbn [negb].
  destruct (camera_threads m !! index) as [t|] eqn:Hi.
  - destruct (connected t) eqn:Hc.
    + destruct (get_frame t) as [[f|] t1] eqn:Hg; cbn [fst snd].
      * split.
        -- intros [= ->]. exists t. by rewrite Hg.
        -- intros (t' & [= <-] & _ & Hf). rewrite Hg in Hf. by injection Hf as ->.
      * split; [done|]. intros (t' & [= <-] & _ & Hf). by rewrite Hg in Hf.
    + split; [done|]. intros (t' & [= <-] & ? & _). congruence.
  - split; [done|]. by intros (t' & [=] & _).
Qed.

(** X25. A camera whose loop has ended is shown as "Connecting...": if
    the thread of an index that the store has enabled has left [run]
    (source lost, or never opened), the view shows the placeholder with
    that status, although no thread will try to connect again before the
    next reload. With no "name" in the configuration the placeholder is
    titled "Camera" and the index plus one. *)
Theorem X25_lost_camera_shown_connecting (m : CameraManager) (index : Z)
    (t : CameraThread) :
  camera_threads m !! index = Some t →
  reachable t → phase (locals t) = Finished →
  let config := get_camera_config (config_manager m) index in
  truthy (dict_get config "enabled" (JBool false)) = true →
  ∃ camera_name,
    View.update_frame true index m
      = (View.Placeholder camera_name "Connecting...", m) ∧
    (config !! "name" = None →
       camera_name = "Camera " +:+ pretty (index + 1)).
Proof.
  intros Hi Hr Hph config Hen. subst config.
  pose proof (finished_not_connected t Hr Hph) as Hcon.
  unfold View.update_frame, View.show_placeholder, Manager.is_camera_connected.
  rewrite Hi, Hcon. simpl. rewrite Hen. eexists. split; [done|].
  intros Hname. unfold dict_get. by rewrite Hname.
Qed.

Lemma X25_lost_camera_shown_connecting_witness :
  let m := mkManager (mkConfigManager "camera_config.json" [local_camera])
             {[ 0 := exec (failures 6) just_connected ]} [] in
  View.update_frame true 0 m = (View.Placeholder "Camera 1" "Connecting...", m).
Proof.
  intros m.
  assert (Hr : reachable (exec (failures 6) just_connected)).
  { apply reachable_exec. exists 0, local_camera, [EvRun OpenOk]. reflexivity. }
  destruct (X25_lost_camera_shown_connecting m 0 (exec (failures 6) just_connected)
              ltac:(vm_compute; reflexivity) Hr ltac:(vm_compute; reflexivity)
              ltac:(vm_compute; reflexivity))
    as (camera_name & Hshow & Hname).
  rewrite Hshow, (Hname ltac:(vm_compute; reflexivity)).
  vm_compute. reflexivity.
Defined.

(** * The window: screens and focus *)

Lemma update_camera_display_in_range w :
  Grid.in_range w → Grid.in_range (Grid.update_camera_display w).
Proof.
  intros [Hs Hf Hv Hsv]. unfold Grid.update_camera_display.
  case_bool_decide; split;
    cbn [Grid.current_screen Grid.mode Grid.focused_camera Grid.camera_views
         Grid.single_view]; try done.
  - apply Forall_fmap, Forall_forall. intros i Hi%elem_of_seqZ. simpl.
    destruct Hs as [-> | ->]; lia.
  - by intros c [= <-].
Qed.

Lemma init_in_range : Grid.in_range Grid.init.
Proof.
  apply update_camera_display_in_range.
  split; cbn [Grid.current_screen Grid.mode Grid.focused_camera Grid.camera_views
              Grid.single_view]; [by left|lia| |done].
  apply Forall_forall. intros i Hi%elem_of_seqZ. lia.
Qed.

Lemma handle_in_range a w : Grid.in_range w → Grid.in_range (Grid.handle a w).
Proof.
  intros Hw. pose proof Hw as [Hs Hf Hv Hsv].
  assert (Hclick : ∀ c, 0 ≤ c < 48 → Grid.in_range (Grid.on_camera_clicked c w)).
  { intros c Hc. apply update_camera_display_in_range. by split. }
  destruct a as [i| | | | |]; simpl.
  - destruct (Grid.camera_views w !! i) as [c|] eqn:Hi; [|done].
    apply Hclick. by apply (Forall_lookup_1 _ _ _ _ Hv Hi).
  - apply update_camera_display_in_range. split; simpl; auto.
  - apply update_camera_display_in_range. split; simpl; auto.
  - apply update_camera_display_in_range. by split.
  - apply Hclick. apply Z.mod_pos_bound. lia.
  - apply Hclick. apply Z.mod_pos_bound. lia.
Qed.

(** X26. Whatever the user clicks, every camera index the window holds
    (the focused camera, the 24 grid views, the full-size view) is one of
    [range(48)], the indices for which [reload_config] may have a thread,
    and the screen number is 0 or 1. *)
Theorem X26_window_indices_in_range (actions : list Grid.Action) :
  Grid.in_range (Grid.run actions Grid.init).
Proof.
  unfold Grid.run. induction actions as [|a actions IH] using rev_ind.
  - apply init_in_range.
  - rewrite foldl_app. simpl. by apply handle_in_range.
Qed.

(** X27. In grid mode the first screen shows the cameras 0 to 23 and the
    second the cameras 24 to 47, each in view order; the 24 views get 24
    different cells of a grid of 4 rows and 6 columns. *)
Theorem X27_grid_layout (w : Grid.Window) :
  Grid.mode w = 0 →
  Grid.camera_views (Grid.handle Grid.PrevScreen w) = seqZ 0 24 ∧
  Grid.camera_views (Grid.handle Grid.NextScreen w) = seqZ 24 24 ∧
  (∀ i, 0 ≤ i < 24 →
     0 ≤ (Grid.cell i).1 < 4 ∧ 0 ≤ (Grid.cell i).2 < 6) ∧
  (∀ i j, 0 ≤ i < 24 → 0 ≤ j < 24 → Grid.cell i = Grid.cell j → i = j).
Proof.
  intros Hmode. split; [|split; [|split]].
  - simpl. unfold Grid.on_prev_clicked, Grid.update_camera_display. simpl.
    rewrite bool_decide_eq_true_2 by done. simpl. vm_compute. reflexivity.
  - simpl. unfold Grid.on_next_clicked, Grid.update_camera_display. simpl.
    rewrite bool_decide_eq_true_2 by done. simpl. vm_compute. reflexivity.
  - intros i Hi. unfold Grid.cell. simpl. Z.div_mod_to_equations. lia.
  - intros i j Hi Hj. unfold Grid.cell. intros [= Hrow Hcol].
    Z.div_mod_to_equations. lia.
Qed.

Lemma X27_grid_layout_witness :
  Grid.camera_views (Grid.handle Grid.NextScreen Grid.init) = seqZ 24 24.
Proof.
  exact (proj1 (proj2 (X27_grid_layout Grid.init ltac:(vm_compute; reflexivity)))).
Defined.

(** X11. The arrows of the single-camera view walk round the 48 cameras:
    from a focused camera in range, "next" goes to the following index
    and from 47 to 0, "previous" goes to the preceding index and from 0
    to 47, each undoes the other, and the full-size view shows the
    focused camera. *)
Theorem X11_focus_wraps_around (w : Grid.Window) :
  0 ≤ Grid.focused_camera w < 48 →
  let next := Grid.handle Grid.NextCamera w in
  let prev := Grid.handle Grid.PrevCamera w in
  Grid.focused_camera next
    = (if bool_decide (Grid.focused_camera w = 47) then 0
       else Grid.focused_camera w + 1) ∧
  Grid.focused_camera prev
    = (if bool_decide (Grid.focused_camera w = 0) then 47
       else Grid.focused_camera w - 1) ∧
  Grid.focused_camera (Grid.handle Grid.PrevCamera next) = Grid.focused_camera w ∧
  Grid.focused_camera (Grid.handle Grid.NextCamera prev) = Grid.focused_camera w ∧
  Grid.single_view next = Some (Grid.focused_camera next) ∧
  Grid.mode next = 1.
Proof.
  intros Hf. cbv zeta. simpl.
  unfold Grid.on_camera_clicked, Grid.update_camera_display. simpl.
  repeat split; repeat case_bool_decide; simpl; try done;
    Z.div_mod_to_equations; lia.
Qed.

Lemma X11_focus_wraps_around_witness :
  Grid.focused_camera (Grid.handle Grid.PrevCamera Grid.init) = 47.
Proof.
  destruct (X11_focus_wraps_around Grid.init ltac:(vm_compute; split; [discriminate|reflexivity]))
    as (_ & Hprev & _).
  rewrite Hprev. vm_compute. reflexivity.
Defined.

(** * Stopping a loop *)



(** * The capture loop, statement by statement *)

Lemma fine_exec_snoc es e s :
  Fine.exec (es ++ [e]) s = Fine.step e (Fine.exec es s).
Proof. unfold Fine.exec. by rewrite foldl_app. Qed.

Lemma fine_exec_app es1 es2 s :
  Fine.exec (es1 ++ es2) s = Fine.exec es2 (Fine.exec es1 s).
Proof. unfold Fine.exec. by rewrite foldl_app. Qed.

(** Unfold one statement of a thread given by its fields. *)
Ltac crush_fine :=
  unfold Fine.step, Fine.go, Fine.pc_ok, Fine.set_cap, Fine.set_phase, leave,
    get_frame, stop, set_failures, set_running, set_connected,
    set_frame_queue, set_latest_frame, set_locals, Queue.get_nowait in *;
  simpl in *.

Lemma fine_step_ok e s :
  Fine.pc_ok (Fine.pc s) (Fine.obj s) →
  Fine.pc_ok (Fine.pc (Fine.step e s)) (Fine.obj (Fine.step e s)).
Proof.
  destruct s as [[ix cfg run con q lf tmo st [ph cp rf gr]] p].
  destruct e as [o r| |].
  - destruct p; crush_fine; intros Hok;
      repeat (case_match; simpl in *; subst); try done; by destruct Hok.
  - destruct p, q; crush_fine; done.
  - destruct p; crush_fine; done.
Qed.

Lemma fine_reachable_ok s :
  Fine.reachable s → Fine.pc_ok (Fine.pc s) (Fine.obj s).
Proof.
  intros (index & cfg & es & ->).
  induction es as [|e es IH] using rev_ind; [done|].
  rewrite fine_exec_snoc. by apply fine_step_ok.
Qed.

(** C3, amended. Whatever statement [run] has reached and however calls
    of [get_frame] and [stop] fall between its statements, a true
    [connected] flag means that this [run] has constructed its capture and
    found it open: the capture is open, or was open and has been
    released. No frame need have been read. *)
Theorem C3_connected_means_source_opened (s : Fine.State) :
  Fine.reachable s → connected (Fine.obj s) = true →
  cap (locals (Fine.obj s)) = Opened ∨ cap (locals (Fine.obj s)) = Released.
Proof.
  intros Hr Hcon. pose proof (fine_reachable_ok s Hr) as Hok.
  destruct s as [t p]. simpl in *.
  destruct p; simpl in Hok; try (by left); try (by right); try congruence.
  destruct Hok. congruence.
Qed.

(** A thread stopped while connected, after [cap.release()] and before
    [self.connected = False]. *)
Lemma C3_connected_means_source_opened_witness :
  let s := Fine.exec [Fine.Go OpenOk ReadFail; Fine.Go OpenOk ReadFail;
                      Fine.Go OpenOk ReadFail; Fine.Stop;
                      Fine.Go OpenOk ReadFail; Fine.Go OpenOk ReadFail]
             (Fine.mkState (start (new_thread 0 local_camera)) Fine.AtStart) in
  connected (Fine.obj s) = true ∧ cap (locals (Fine.obj s)) = Released.
Proof.
  intros s.
  assert (Hr : Fine.reachable s).
  { exists 0, local_camera,
      [Fine.Go OpenOk ReadFail; Fine.Go OpenOk ReadFail; Fine.Go OpenOk ReadFail;
       Fine.Stop; Fine.Go OpenOk ReadFail; Fine.Go OpenOk ReadFail].
    reflexivity. }
  assert (Hc : connected (Fine.obj s) = true) by (vm_compute; reflexivity).
  split; [done|].
  destruct (C3_connected_means_source_opened s Hr Hc) as [Hopen|Hrel]; [|done].
  exfalso. vm_compute in Hopen. discriminate Hopen.
Defined.

(** [run_begin] with its tests on the configuration of the thread. *)
Lemma run_begin_tests o t :
  run_begin o t =
    if negb (truthy (dict_get (config t) "enabled" (JBool false))) then
      leave NoCapture (set_running true t)
    else if get_is_str (config t) "source_type" "rtsp"
            && negb (truthy (dict_get (config t) "url" (JStr ""))) then
      leave NoCapture (set_running true t)
    else
      match o with
      | OpenError => leave NoCapture (set_running true t)
      | OpenFailed => leave Unopened (set_running true t)
      | OpenOk =>
          set_locals (mkLocals Reading Opened 0 (good_reads (locals t)))
                     (set_connected true (set_running true t))
      end.
Proof. by destruct t. Qed.

Lemma go_at_start_tests o r t :
  started t = true →
  Fine.go o r (Fine.mkState t Fine.AtStart) =
    if negb (truthy (dict_get (config t) "enabled" (JBool false))) then
      Fine.mkState (leave NoCapture (set_running true t)) Fine.Done
    else if get_is_str (config t) "source_type" "rtsp"
            && negb (truthy (dict_get (config t) "url" (JStr ""))) then
      Fine.mkState (leave NoCapture (set_running true t)) Fine.Done
    else Fine.mkState (set_running true t) Fine.AtOpen.
Proof. intros Hst. unfold Fine.go. cbn [Fine.pc Fine.obj]. rewrite Hst. by destruct t. Qed.

(** Entering [run] is three statements (fewer if [run] returns early,
    after which further statements do nothing). *)
Lemma run_begin_by_statements o t :
  started t = true → phase (locals t) = Created →
  Fine.exec (replicate 3 (Fine.Go o ReadFail)) (Fine.of_thread t)
    = Fine.of_thread (run_begin o t).
Proof.
  intros Hst Hph. unfold Fine.of_thread at 1. rewrite Hph.
  unfold Fine.exec. cbn [replicate foldl Fine.step].
  rewrite go_at_start_tests, run_begin_tests by done.
  destruct (negb (truthy (dict_get (config t) "enabled" (JBool false))));
    [by destruct t as [? ? ? ? ? ? ? ? []]|].
  destruct (get_is_str (config t) "source_type" "rtsp"
            && negb (truthy (dict_get (config t) "url" (JStr ""))));
    [by destruct t as [? ? ? ? ? ? ? ? []]|].
  destruct t as [ix cfg run con q lf tmo st [ph cp rf gr]]. by destruct o.
Qed.

Lemma fine_exec_cons e es s :
  Fine.exec (e :: es) s = Fine.exec es (Fine.step e s).
Proof. done. Qed.

(** Run one statement, or the loop-pass model, on a thread given by its
    fields, leaving the queue operations and the comparisons as they
    stand. *)
Ltac run_statements :=
  cbv [Fine.step Fine.go Fine.pc Fine.obj
       Fine.set_cap Fine.set_phase Fine.of_thread run_iteration clean_up
       publish queue_of negb set_failures set_locals set_latest_frame
       set_frame_queue set_connected set_running locals phase cap
       read_failures good_reads frame_queue camera_index config running
       connected latest_frame timeout started Queue.get_nowait].

Ltac next_statement := rewrite fine_exec_cons; run_statements.

(** One pass of the loop is between two and six statements. *)
Lemma run_iteration_by_statements r t :
  phase (locals t) = Reading →
  ∃ n, Fine.exec (replicate n (Fine.Go OpenOk r)) (Fine.of_thread t)
       = Fine.of_thread (run_iteration r t).
Proof.
  intros Hph.
  destruct t as [ix cfg run con q lf tmo st [ph cp rf gr]].
  cbn [locals phase] in Hph. subst ph.
  destruct run.
  2:{ exists 3%nat. cbn [replicate]. do 3 next_statement. reflexivity. }
  destruct r as [f| |].
  - destruct (Queue.put_nowait frame_queue_maxsize f q) as [q1|] eqn:Hput.
    + exists 4%nat. cbn [replicate]. do 4 next_statement.
      rewrite Hput. reflexivity.
    + destruct q as [|old q].
      * exists 5%nat. cbn [replicate]. do 4 next_statement. rewrite Hput.
        next_statement. reflexivity.
      * exists 6%nat. cbn [replicate]. do 4 next_statement. rewrite Hput.
        next_statement. clear Hput. next_statement.
        generalize (Queue.put_nowait frame_queue_maxsize f q).
        intros [q2|]; reflexivity.
  - destruct (bool_decide (rf + 1 > 5)) eqn:Hover.
    + exists 5%nat. cbn [replicate]. do 2 next_statement. rewrite Hover.
      do 3 next_statement. reflexivity.
    + exists 2%nat. cbn [replicate]. do 2 next_statement. rewrite Hover.
      reflexivity.
  - exists 2%nat. cbn [replicate]. do 2 next_statement. reflexivity.
Qed.

(** Between loop passes, and so in every state of the loop-pass model,
    the statement-by-statement thread stands at [AtStart], [AtLoopTest]
    or [Done]: each step of the loop-pass model is a run of statements. *)
Lemma step_is_run_of_statements e t :
  ∃ es, Fine.exec es (Fine.of_thread t) = Fine.of_thread (step e t).
Proof.
  destruct e as [o|r| |].
  - unfold step.
    destruct (started t) eqn:Hst; cbn [andb]; [|by exists []].
    case_bool_decide as Hph; [|by exists []].
    exists (replicate 3 (Fine.Go o ReadFail)). by apply run_begin_by_statements.
  - unfold step. case_bool_decide as Hph; [|by exists []].
    destruct (run_iteration_by_statements r t Hph) as [n Hn]. by eexists.
  - exists [Fine.Get]. unfold Fine.of_thread, step, get_frame.
    destruct t as [ix cfg run con [|f q] lf tmo st l]; reflexivity.
  - exists [Fine.Stop]. by destruct t.
Qed.

(** Every state of the loop-pass model is a state of the
    statement-by-statement one. *)
Lemma reachable_is_fine_reachable t :
  reachable t → Fine.reachable (Fine.of_thread t).
Proof.
  intros Hr. induction Hr as [index cfg|e t Hr IH] using reachable_induction.
  - by exists index, cfg, [].
  - destruct IH as (index & cfg & es & Heq).
    destruct (step_is_run_of_statements e t) as [es' Hes'].
    exists index, cfg, (es ++ es'). by rewrite fine_exec_app, <- Heq.
Qed.

(** * What has been released when [stop] returns *)



